(** * tallythermal: Tally XML extraction and ESC/POS receipt generation

    A shallow embedding of [src/parseTallyXML.js] (the document extractor)
    and [src/generateEscPosCommands.js] (the receipt command generator and
    the raster conversion of the logo), together with the properties of the
    specification that were checked against them.

    JavaScript values are modelled as the language defines them:
    - a string is the list of its UTF-16 code units ([list Z]);
    - a number is an IEEE 754 binary64 value ([spec_float] with precision 53
      and maximal exponent 1024), with the operations of the standard
      library's executable specification of floating-point arithmetic;
    - a byte of a [Uint8Array] is a [Z] in [0, 255]. *)

From Stdlib Require Import ZArith Ascii String Decimal DecimalPos DecimalN.
From Stdlib Require Import Floats.SpecFloat.
From stdpp Require Import base tactics option list numbers.
From Equations Require Import Equations.

Set Warnings "-register-all".
Local Open Scope Z_scope.

(** ** JavaScript strings *)

Abbreviation jsstring := (list Z) (only parsing).

Module JSString.

(** The code units of an ASCII literal of the source. *)
Definition js (s : string) : jsstring :=
  map (fun a => Z.of_N (N_of_ascii a)) (list_ascii_of_string s).

Definition str_eqb (a b : jsstring) : bool := bool_decide (a = b).

(** Truthiness of a string: only the empty string is falsy. *)
Definition truthy (s : jsstring) : bool :=
  match s with [] => false | _ => true end.

(** [s || d] on strings. *)
Definition orElse (s d : jsstring) : jsstring :=
  if truthy s then s else d.

(** Truthiness of a possibly [undefined] string property. *)
Definition truthyOpt (o : option jsstring) : bool :=
  match o with Some s => truthy s | None => false end.

(** WhiteSpace and LineTerminator code units, the ones [trim] removes. *)
Definition isWhiteSpace (c : Z) : bool :=
  (9 <=? c) && (c <=? 13) || (c =? 32) || (c =? 160) || (c =? 5760)
  || (8192 <=? c) && (c <=? 8202) || (c =? 8232) || (c =? 8233)
  || (c =? 8239) || (c =? 8287) || (c =? 12288) || (c =? 65279).

Fixpoint trimStart (s : jsstring) : jsstring :=
  match s with
  | c :: r => if isWhiteSpace c then trimStart r else s
  | [] => []
  end.

Definition trimEnd (s : jsstring) : jsstring := rev (trimStart (rev s)).

Definition trim (s : jsstring) : jsstring := trimEnd (trimStart s).

(** [s.substring(a, b)] and [s.substring(a)] for [0 <= a <= b]. *)
Definition substring (a b : nat) (s : jsstring) : jsstring :=
  take (b - a) (drop a s).

Definition substringFrom (a : nat) (s : jsstring) : jsstring := drop a s.

(** [s.slice(a, b)] for non-negative [a <= b]. *)
Definition slice (a b : nat) (s : jsstring) : jsstring :=
  take (b - a) (drop a s).

Fixpoint startsWith (p s : jsstring) : bool :=
  match p, s with
  | [], _ => true
  | a :: p', b :: s' => (a =? b) && startsWith p' s'
  | _ :: _, [] => false
  end.

(** [s.includes(p)]. *)
Fixpoint includes (s p : jsstring) : bool :=
  startsWith p s ||
  match s with
  | [] => false
  | _ :: r => includes r p
  end.

(** [s.lastIndexOf(c)] for a one-unit search string: [None] stands for -1. *)
Fixpoint lastIndexOf (c : Z) (s : jsstring) : option nat :=
  match s with
  | [] => None
  | x :: r =>
      match lastIndexOf c r with
      | Some i => Some (S i)
      | None => if x =? c then Some 0%nat else None
      end
  end.

(** [s.split(c)] for a one-unit separator; the result is never empty. *)
Fixpoint split (c : Z) (s : jsstring) : list jsstring :=
  match s with
  | [] => [[]]
  | x :: r =>
      if x =? c then [] :: split c r
      else match split c r with
           | w :: ws => (x :: w) :: ws
           | [] => [[x]]
           end
  end.

(** [s.split(c)[0]]. *)
Definition splitHead (c : Z) (s : jsstring) : jsstring :=
  hd [] (split c s).

(** [parts.join(sep)]. *)
Fixpoint join (sep : jsstring) (parts : list jsstring) : jsstring :=
  match parts with
  | [] => []
  | [p] => p
  | p :: ps => p ++ sep ++ join sep ps
  end.

(** [s.repeat(n)]. *)
Definition repeat (s : jsstring) (n : nat) : jsstring :=
  concat (replicate n s).

Definition space : Z := 32.

(** [s.padEnd(n)] and [s.padStart(n)] with the default filler. *)
Definition padEnd (n : nat) (s : jsstring) : jsstring :=
  s ++ replicate (n - length s) space.

Definition padStart (n : nat) (s : jsstring) : jsstring :=
  replicate (n - length s) space ++ s.

(** [s.replace(/p/g, r)] for a literal, non-empty pattern [p]: matches are
    taken left to right and do not overlap. *)
Fixpoint replaceAll_aux (fuel : nat) (p r s : jsstring) : jsstring :=
  match fuel with
  | O => s
  | S fuel' =>
      match s with
      | [] => []
      | c :: s' =>
          if startsWith p s
          then r ++ replaceAll_aux fuel' p r (drop (length p) s)
          else c :: replaceAll_aux fuel' p r s'
      end
  end.

Definition replaceAll (p r s : jsstring) : jsstring :=
  replaceAll_aux (length s) p r s.

Definition isDigit (c : Z) : bool := (48 <=? c) && (c <=? 57).

Definition digitChar (d : Z) : Z := 48 + d.

(** Decimal digits of a natural number, most significant first. *)
Fixpoint uint_chars (u : Decimal.uint) : jsstring :=
  match u with
  | Decimal.Nil => []
  | Decimal.D0 r => 48 :: uint_chars r
  | Decimal.D1 r => 49 :: uint_chars r
  | Decimal.D2 r => 50 :: uint_chars r
  | Decimal.D3 r => 51 :: uint_chars r
  | Decimal.D4 r => 52 :: uint_chars r
  | Decimal.D5 r => 53 :: uint_chars r
  | Decimal.D6 r => 54 :: uint_chars r
  | Decimal.D7 r => 55 :: uint_chars r
  | Decimal.D8 r => 56 :: uint_chars r
  | Decimal.D9 r => 57 :: uint_chars r
  end.

(** The decimal representation of a non-negative integer ([String(n)]). *)
Definition decimal (n : Z) : jsstring := uint_chars (N.to_uint (Z.to_N n)).

(** The value of a run of decimal digits. *)
Definition digitsValue (ds : jsstring) : Z :=
  foldl (fun acc c => 10 * acc + (c - 48)) 0 ds.

(** [span p s]: the longest prefix whose units satisfy [p], and the rest. *)
Fixpoint span (p : Z -> bool) (s : jsstring) : jsstring * jsstring :=
  match s with
  | c :: r => if p c then let '(a, b) := span p r in (c :: a, b) else ([], s)
  | [] => ([], [])
  end.

End JSString.

Import JSString.

(** ** JavaScript numbers *)

Abbreviation number := spec_float (only parsing).

Module JSNumber.

Definition prec : Z := 53.
Definition emax : Z := 1024.

Definition nan : number := S754_nan.
Definition zero : number := S754_zero false.

Definition add : number -> number -> number := SFadd prec emax.
Definition mul : number -> number -> number := SFmul prec emax.
Definition div : number -> number -> number := SFdiv prec emax.
Definition abs : number -> number := SFabs.
Definition ltb : number -> number -> bool := SFltb.

(** The number for a mathematical integer, as a numeric literal or an
    integer-valued property denotes it. *)
Definition ofZ (z : Z) : number := binary_normalize prec emax z 0 false.

Definition isNaN (x : number) : bool :=
  match x with S754_nan => true | _ => false end.

Definition isFinite (x : number) : bool :=
  match x with S754_zero _ | S754_finite _ _ _ => true | _ => false end.

(** Truthiness of a number: [NaN], [+0] and [-0] are falsy. *)
Definition truthy (x : number) : bool :=
  match x with S754_nan | S754_zero _ => false | _ => true end.

(** The number nearest to [m * 10 ^ e] (ties to even), for [0 <= m], with
    the sign [neg]: the value of a decimal literal. *)
Definition ofDecimal (neg : bool) (m e : Z) : number :=
  match m with
  | Z0 => S754_zero neg
  | Zpos _ =>
      if 0 <=? e
      then binary_normalize prec emax (cond_Zopp neg (m * 10 ^ e)) 0 neg
      else
        let '(q, e', l) := SFdiv_core_binary prec emax m 0 (10 ^ (- e)) 0 in
        binary_round_aux prec emax neg q e' l
  | Zneg _ => S754_nan
  end.

(** The magnitude of a finite number as an exact fraction [num / den]. *)
Definition magnitude (m : positive) (e : Z) : Z * Z :=
  (Z.pos m * 2 ^ Z.max e 0, 2 ^ Z.max (- e) 0).

(** [Math.round]: the nearest integer, ties towards positive infinity. *)
Definition round (x : number) : number :=
  match x with
  | S754_finite s m e =>
      let '(num, den) := magnitude m e in
      let v := cond_Zopp s num in
      let r := (2 * v + den) / (2 * den) in
      binary_normalize prec emax r 0 s
  | _ => x
  end.

(** The mathematical integer of an integral number, [None] otherwise. *)
Definition toInteger (x : number) : option Z :=
  match x with
  | S754_zero _ => Some 0
  | S754_finite s m e =>
      let '(num, den) := magnitude m e in
      if num mod den =? 0 then Some (cond_Zopp s (num / den)) else None
  | _ => None
  end.

(** The decimal digits chosen by Number::toString for an integer value [v]
    of a number [x] with [10 ^ 21 <= v]: the least count [k] of significant
    digits for which a [k]-digit decimal still denotes [x], and among the
    two [k]-digit neighbours of [v] the one nearest to [v]. *)
Definition denotes (x : number) (v : Z) : bool := SFeqb (ofZ v) x.

Fixpoint shortestDigits (fuel : nat) (k : nat) (x : number) (v : Z)
  : jsstring * Z :=
  let d := Z.of_nat (length (decimal v)) in
  match fuel with
  | O => (decimal v, d)
  | S fuel' =>
      let p := 10 ^ (d - Z.of_nat k) in
      let lo := (v / p) * p in
      let hi := lo + p in
      let pick c := (take k (decimal c), Z.of_nat (length (decimal c))) in
      match denotes x lo, denotes x hi with
      | true, true =>
          if v - lo <? hi - v then pick lo
          else if hi - v <? v - lo then pick hi
          else if Z.even (lo / p) then pick lo else pick hi
      | true, false => pick lo
      | false, true => pick hi
      | false, false => shortestDigits fuel' (S k) x v
      end
  end.

(** Number::toString for a finite [x] whose magnitude is the integer
    [v >= 10 ^ 21]: exponential notation. *)
Definition toStringLarge (x : number) (v : Z) : jsstring :=
  let '(ds, n) := shortestDigits (length (decimal v)) 1 x v in
  match ds with
  | [] => []
  | [d] => d :: js "e+" ++ decimal (n - 1)
  | d :: rest => d :: js "." ++ rest ++ js "e+" ++ decimal (n - 1)
  end.

(** The digits of [Number.prototype.toFixed] for the integer [n] (the
    value scaled by [10 ^ f]): at least [f + 1] digits, with a point before
    the last [f]. *)
Definition fixedDigits (f : nat) (n : Z) : jsstring :=
  let m := decimal n in
  let m := replicate (S f - length m) 48 ++ m in
  let k := length m in
  if decide (f = 0%nat) then m
  else take (k - f) m ++ js "." ++ drop (k - f) m.

(** [x.toFixed(f)]. *)
Definition toFixed (f : nat) (x : number) : jsstring :=
  match x with
  | S754_nan => js "NaN"
  | S754_infinity s => if s then js "-Infinity" else js "Infinity"
  | S754_zero _ => fixedDigits f 0
  | S754_finite s m e =>
      let '(num, den) := magnitude m e in
      (if s then js "-" else []) ++
      if 10 ^ 21 * den <=? num
      then toStringLarge (S754_finite false m e) (num / den)
      else fixedDigits f ((2 * num * 10 ^ Z.of_nat f + den) / (2 * den))
  end.

(** The exponent part of a StrDecimalLiteral at the head of [s]: its value,
    or [0] when there is none. *)
Definition exponentPart (s : jsstring) : Z :=
  match s with
  | c :: r =>
      if (c =? 101) || (c =? 69) then
        let '(neg, r') :=
          match r with
          | sg :: r1 =>
              if sg =? 45 then (true, r1)
              else if sg =? 43 then (false, r1) else (false, r)
          | [] => (false, r)
          end in
        let '(ds, _) := span isDigit r' in
        match ds with
        | [] => 0
        | _ => cond_Zopp neg (digitsValue ds)
        end
      else 0
  | [] => 0
  end.

(** [parseFloat(s)]: leading white space is skipped, the longest prefix that
    is a StrDecimalLiteral is converted, and [NaN] is returned when there is
    none. *)
Definition parseFloat (s : jsstring) : number :=
  let t := trimStart s in
  let '(neg, t1) :=
    match t with
    | c :: r =>
        if c =? 45 then (true, r)
        else if c =? 43 then (false, r) else (false, t)
    | [] => (false, t)
    end in
  if startsWith (js "Infinity") t1 then S754_infinity neg
  else
    let '(ip, t2) := span isDigit t1 in
    let '(fp, t3) :=
      match t2 with
      | c :: r => if c =? 46 then span isDigit r else ([], t2)
      | [] => ([], t2)
      end in
    match ip ++ fp with
    | [] => S754_nan
    | ds =>
        ofDecimal neg (digitsValue ds) (exponentPart t3 - Z.of_nat (length fp))
    end.

End JSNumber.

Import JSNumber.

(** ** The document object model *)

Module DOM.

(** An XML node: an element with its tag name and children, or character
    data. The document node is the element named [#document]. *)
Inductive Node :=
| Element (tagName : jsstring) (childNodes : list Node)
| Text (data : jsstring).

Fixpoint textContent (n : Node) : jsstring :=
  match n with
  | Text d => d
  | Element _ ch => flat_map textContent ch
  end.

Definition tagOf (n : Node) : jsstring :=
  match n with Element t _ => t | Text _ => [] end.

(** The elements below [n] in document order, each with the tag names of
    its ancestors up to [n], innermost first. *)
Fixpoint descendants (path : list jsstring) (n : Node)
  : list (list jsstring * Node) :=
  match n with
  | Text _ => []
  | Element tag ch =>
      flat_map (fun c =>
        match c with
        | Element _ _ => [(tag :: path, c)]
        | Text _ => []
        end ++ descendants (tag :: path) c) ch
  end.

Fixpoint isPrefix (p l : list jsstring) : bool :=
  match p, l with
  | [], _ => true
  | a :: p', b :: l' => str_eqb a b && isPrefix p' l'
  | _ :: _, [] => false
  end.

(** A selector [A > B > C] is the list of its type names [[A; B; C]]: an
    element matches when it is named [C], its parent [B] and the parent of
    that [A]. The ancestors known inside [scope.querySelectorAll] are those
    up to [scope], which is all of them for the document and enough for the
    two-step selectors the extractor applies to an element. *)
Definition selects (sel : list jsstring) (path : list jsstring) (e : Node)
  : bool :=
  match rev sel with
  | [] => false
  | t :: parents => str_eqb t (tagOf e) && isPrefix parents path
  end.

Definition querySelectorAll (sel : list jsstring) (scope : Node) : list Node :=
  map snd (filter (fun pe => selects sel (fst pe) (snd pe) = true)
                  (descendants [] scope)).

Definition querySelector (sel : list jsstring) (scope : Node) : option Node :=
  head (querySelectorAll sel scope).

End DOM.

Import DOM.

(** ** The platform *)

(** What the browser supplies and the repository does not define: the XML
    parser, the case mapping of strings, and the decoding and scaling of
    images. [loadImage url] is the natural width and height of the decoded
    image, or [None] when loading fails; [getImageData url w h] is the RGBA
    data of a [w] by [h] canvas on which that image was drawn scaled. *)
Class Host := {
  parseFromString : jsstring -> Node;
  toUpperCase : jsstring -> jsstring;
  loadImage : jsstring -> option (Z * Z);
  getImageData : jsstring -> Z -> Z -> list Z
}.

(** ** src/parseTallyXML.js *)

Module Extractor.

Record Item := {
  item_name : jsstring;
  item_qty : jsstring;
  item_rate : jsstring;
  item_amount : jsstring;
  item_sNo : option Z
}.

Record Company := {
  company_name : jsstring;
  company_gstin : jsstring;
  company_address : option jsstring;
  company_phone : option jsstring
}.

Record Order := {
  order_number : jsstring;
  order_date : jsstring;
  order_user : jsstring
}.

Record Party := {
  party_name : jsstring;
  party_address : jsstring;
  party_gstin : jsstring
}.

Record Totals := {
  subtotal : jsstring;
  igst : jsstring;
  cgst : jsstring;
  sgst : jsstring;
  total : jsstring
}.

(** The object [parseTallyXML] returns. The generator also reads the
    properties [company.address], [company.phone], [amountInWords],
    [termsAndConditions] and [authorizedSignatory], which the extractor
    leaves undefined ([None]). *)
Record Invoice := {
  heading : jsstring;
  company : Company;
  order : Order;
  party : Party;
  items : list Item;
  totals : Totals;
  narration : jsstring;
  amountInWords : option jsstring;
  termsAndConditions : option jsstring;
  authorizedSignatory : option jsstring
}.

(** The outcome of a block that may throw. *)
Inductive Completion (A : Type) :=
| Normal (a : A)
| Throw (message : jsstring).
Arguments Normal {A} a.
Arguments Throw {A} message.

Definition bind {A B} (c : Completion A) (k : A -> Completion B)
  : Completion B :=
  match c with
  | Normal a => k a
  | Throw m => Throw m
  end.

Notation "x <- c ;; k" := (bind c (fun x => k))
  (at level 100, c at level 99, right associativity).

(** [try { ... } catch (err) { return null; }] *)
Definition tryCatch {A} (c : Completion A) : option A :=
  match c with
  | Normal a => Some a
  | Throw _ => None
  end.

(** [formatDate] *)
Definition formatDate (d : jsstring) : jsstring :=
  if JSString.truthy d
  then slice 6 8 d ++ js "-" ++ slice 4 6 d ++ js "-" ++ slice 0 4 d
  else [].

(** The helper [get]: the trimmed text of the first element named [tag]
    below [node], or the empty string. *)
Definition get (tag : string) (node : Node) : jsstring :=
  match querySelector [js tag] node with
  | Some e => trim (textContent e)
  | None => []
  end.

Definition getAll (sel : list jsstring) (node : Node) : list Node :=
  querySelectorAll sel node.

(** The helper [parseQty]. *)
Definition parseQty (qtyStr : jsstring) : jsstring :=
  let qty := splitHead space (trim qtyStr) in
  if isNaN (parseFloat qty) then js "0" else qty.

(** [parseFloat(s || 0)]: the number [0] is converted to the string ["0"]
    before it is parsed. *)
Definition parseFloatOr0 (s : jsstring) : number :=
  parseFloat (orElse s (js "0")).

Definition rateValue (el : Node) : number :=
  parseFloatOr0 (splitHead 47 (get "RATE" el)).

Definition amountValue (el : Node) : number :=
  abs (parseFloatOr0 (get "AMOUNT" el)).

(** The helper [parseItemsFromList]. *)
Definition parseItem (el : Node) : Item :=
  {| item_name := get "STOCKITEMNAME" el;
     item_qty := parseQty (get "ACTUALQTY" el);
     item_rate := toFixed 2 (rateValue el);
     item_amount := toFixed 2 (amountValue el);
     item_sNo := None |}.

Definition parseItemsFromList (listElements : list Node) : list Item :=
  match listElements with
  | [] => []
  | _ => map parseItem listElements
  end.

(** [items.forEach((item, index) => { item.sNo = index + 1; })] *)
Definition assignSNo (items : list Item) : list Item :=
  imap (fun index item =>
          {| item_name := item_name item; item_qty := item_qty item;
             item_rate := item_rate item; item_amount := item_amount item;
             item_sNo := Some (Z.of_nat index + 1) |}) items.

Definition ALLINVENTORYENTRIES : list jsstring := [js "ALLINVENTORYENTRIES.LIST"].
Definition INVENTORYENTRIESIN : list jsstring := [js "INVENTORYENTRIESIN.LIST"].
Definition INVENTORYENTRIESOUT : list jsstring := [js "INVENTORYENTRIESOUT.LIST"].

Section WithHost.
Context `{Host}.

Definition voucherTypeName (voucher : Node) : jsstring :=
  toUpperCase (get "VOUCHERTYPENAME" voucher).

Definition objView (voucher : Node) : jsstring :=
  toUpperCase (get "OBJVIEW" voucher).

(** The conditional item parsing logic. *)
Definition selectItems (voucher : Node) : list Item :=
  let voucherTypeName := voucherTypeName voucher in
  let objView := objView voucher in
  if includes voucherTypeName (js "STOCK JOURNAL")
     || includes objView (js "CONSUMPTION VOUCHER VIEW")
  then parseItemsFromList (getAll INVENTORYENTRIESOUT voucher)
  else if includes voucherTypeName (js "SALES ORDER")
          || includes voucherTypeName (js "SALES")
  then
    let items := parseItemsFromList (getAll ALLINVENTORYENTRIES voucher) in
    if decide (length items = 0%nat)
    then parseItemsFromList (getAll INVENTORYENTRIESOUT voucher)
    else items
  else if includes voucherTypeName (js "MATERIAL OUT")
          || includes voucherTypeName (js "DELIVERY")
  then
    let items := parseItemsFromList (getAll INVENTORYENTRIESOUT voucher) in
    if decide (length items = 0%nat)
    then parseItemsFromList (getAll ALLINVENTORYENTRIES voucher)
    else items
  else
    parseItemsFromList (getAll ALLINVENTORYENTRIES voucher)
    ++ parseItemsFromList (getAll INVENTORYENTRIESIN voucher)
    ++ parseItemsFromList (getAll INVENTORYENTRIESOUT voucher).

(** [items.reduce((sum, i) => sum + parseFloat(i.amount), 0)] *)
Definition sumAmounts (items : list Item) : number :=
  foldl (fun sum i => add sum (parseFloat (item_amount i))) zero items.

(** The helper [findAmount] over the ledger entries. *)
Definition findAmount (ledgerEntries : list Node) (ledgerName : string)
  : number :=
  let entry :=
    find (fun n => str_eqb (get "LEDGERNAME" n) (js ledgerName)) ledgerEntries in
  parseFloatOr0
    (match entry with
     | Some n =>
         match querySelector [js "AMOUNT"] n with
         | Some a => textContent a
         | None => []
         end
     | None => []
     end).

Definition selectHeading (voucherTypeName : jsstring) : jsstring :=
  if includes voucherTypeName (js "SALES ORDER") then js "SALES ORDER"
  else if includes voucherTypeName (js "MATERIAL OUT")
          || includes voucherTypeName (js "DELIVERY")
  then js "MATERIAL CHALLAN"
  else if includes voucherTypeName (js "SALES") then js "SALES INVOICE"
  else if includes voucherTypeName (js "STOCK JOURNAL") then js "STOCK JOURNAL"
  else js "DOCUMENT".

(** The body of the [try] block. *)
Definition parseBody (xmlString : jsstring) : Completion Invoice :=
  let cleaned := replaceAll (js "&#4;") [] xmlString in
  let xmlDoc := parseFromString cleaned in
  _ <- match querySelector [js "parsererror"] xmlDoc with
       | Some parseError =>
           let errorText :=
             orElse (textContent parseError) (js "Unknown XML parsing error.") in
           Throw (js "Invalid XML format: " ++ errorText)
       | None => Normal tt
       end ;;
  voucher <- match querySelector [js "VOUCHER"] xmlDoc with
             | Some v => Normal v
             | None => Throw (js "<VOUCHER> element not found in XML.")
             end ;;
  let companyName :=
    match querySelector
            [js "REQUESTDESC"; js "STATICVARIABLES"; js "SVCURRENTCOMPANY"]
            xmlDoc with
    | Some e => trim (textContent e)
    | None => []
    end in
  let address :=
    join [10]
      (map (fun a => trim (textContent a))
           (getAll [js "BASICBUYERADDRESS.LIST"; js "BASICBUYERADDRESS"] voucher)) in
  let items := assignSNo (selectItems voucher) in
  let subtotal := sumAmounts items in
  let ledgerEntries := getAll [js "LEDGERENTRIES.LIST"] voucher in
  let igst := findAmount ledgerEntries "IGST" in
  let cgst := findAmount ledgerEntries "CGST" in
  let sgst :=
    let a := findAmount ledgerEntries "SGST" in
    if JSNumber.truthy a then a else findAmount ledgerEntries "SGST/UTGST" in
  let partyAmountEntry :=
    find (fun n => str_eqb (get "ISPARTYLEDGER" n) (js "Yes")) ledgerEntries in
  let total :=
    match partyAmountEntry with
    | Some p => toFixed 2 (abs (parseFloatOr0 (get "AMOUNT" p)))
    | None => toFixed 2 subtotal
    end in
  Normal
    {| heading := selectHeading (voucherTypeName voucher);
       company := {| company_name := companyName;
                     company_gstin := get "CMPGSTIN" voucher;
                     company_address := None;
                     company_phone := None |};
       order := {| order_number := get "VOUCHERNUMBER" voucher;
                   order_date := formatDate (get "DATE" voucher);
                   order_user := get "ENTEREDBY" voucher |};
       party := {| party_name := get "PARTYNAME" voucher;
                   party_address := address;
                   party_gstin := get "PARTYGSTIN" voucher |};
       items := items;
       totals := {| subtotal := toFixed 2 subtotal;
                    igst := toFixed 2 igst;
                    cgst := toFixed 2 cgst;
                    sgst := toFixed 2 sgst;
                    total := total |};
       narration := get "NARRATION" voucher;
       amountInWords := None;
       termsAndConditions := None;
       authorizedSignatory := None |}.

Definition parseTallyXML (xmlString : jsstring) : option Invoice :=
  tryCatch (parseBody xmlString).

End WithHost.

End Extractor.

(** ** src/generateEscPosCommands.js *)

Module Generator.

Import Extractor.

(** The user-defined print settings the generator reads. An undefined
    [logoUrl] or [lineSeparator] behaves as the empty string does. *)
Record Settings := {
  logoUrl : jsstring;
  headerAlignment : jsstring;
  lineSeparator : jsstring;
  labelBold : bool;
  valueBold : bool
}.

(** [new TextEncoder().encode(s)]: UTF-8, with the replacement character
    for a surrogate that has no partner. *)
Fixpoint utf8 (s : jsstring) : list Z :=
  match s with
  | [] => []
  | c :: r =>
      if c <? 128 then c :: utf8 r
      else if c <? 2048 then
        Z.lor 192 (Z.shiftr c 6) :: Z.lor 128 (Z.land c 63) :: utf8 r
      else if (55296 <=? c) && (c <? 56320) then
        match r with
        | d :: r' =>
            if (56320 <=? d) && (d <? 57344) then
              let cp := 65536 + Z.shiftl (c - 55296) 10 + (d - 56320) in
              Z.lor 240 (Z.shiftr cp 18)
              :: Z.lor 128 (Z.land (Z.shiftr cp 12) 63)
              :: Z.lor 128 (Z.land (Z.shiftr cp 6) 63)
              :: Z.lor 128 (Z.land cp 63) :: utf8 r'
            else 239 :: 191 :: 189 :: utf8 r
        | [] => [239; 191; 189]
        end
      else if (56320 <=? c) && (c <? 57344) then 239 :: 191 :: 189 :: utf8 r
      else
        Z.lor 224 (Z.shiftr c 12)
        :: Z.lor 128 (Z.land (Z.shiftr c 6) 63)
        :: Z.lor 128 (Z.land c 63) :: utf8 r
  end.

(** [encodeText]: the rupee sign U+20B9 becomes ["Rs. "]. *)
Definition encodeText (text : jsstring) : list Z :=
  let processedText :=
    flat_map (fun c => if c =? 8377 then js "Rs. " else [c]) text in
  utf8 processedText.

(** *** The raster conversion of [printImage] *)

Definition GS : Z := 29.
Definition ESC : Z := 27.
Definition LF : Z := 10.

(** A colour component read from the pixel data: reading past the end
    gives [undefined], which arithmetic turns into [NaN]. *)
Definition component (data : list Z) (i : nat) : number :=
  match data !! i with
  | Some v => ofZ v
  | None => nan
  end.

Definition luminance (data : list Z) (pixelIndex : nat) : number :=
  let r := component data pixelIndex in
  let g := component data (pixelIndex + 1) in
  let b := component data (pixelIndex + 2) in
  add (add (mul (ofDecimal false 299 (-3)) r) (mul (ofDecimal false 587 (-3)) g))
      (mul (ofDecimal false 114 (-3)) b).

(** The body of the inner loop, for the pixel in column [x] of row [y]. *)
Definition plot (displayWidth bytesPerRow : nat) (data : list Z) (y x : nat)
           (bitmapData : list Z) : list Z :=
  let pixelIndex := ((y * displayWidth + x) * 4)%nat in
  if ltb (luminance data pixelIndex) (ofZ 128) then
    let bytePosition := (x / 8)%nat in
    let bitPosition := (7 - x mod 8)%nat in
    alter (fun byte => Z.lor byte (Z.shiftl 1 (Z.of_nat bitPosition)))
          (y * bytesPerRow + bytePosition)%nat bitmapData
  else bitmapData.

(** The monochrome bitmap of a [displayWidth] by [displayHeight] canvas. *)
Definition rasterize (displayWidth displayHeight : nat) (data : list Z)
  : list Z :=
  let bytesPerRow := ((displayWidth + 7) / 8)%nat in
  let bitmapData := replicate (bytesPerRow * displayHeight) 0 in
  foldl (fun bitmapData y =>
           foldl (fun bitmapData x =>
                    plot displayWidth bytesPerRow data y x bitmapData)
                 bitmapData (seq 0 displayWidth))
        bitmapData (seq 0 displayHeight).

(** The GS v 0 command with its header and the bitmap. *)
Definition rasterCommands (displayWidth displayHeight : nat) (data : list Z)
  : list Z :=
  let bytesPerRow := Z.of_nat ((displayWidth + 7) / 8) in
  let h := Z.of_nat displayHeight in
  [GS; 118; 48; 0;
   Z.land bytesPerRow 255; Z.land (Z.shiftr bytesPerRow 8) 255;
   Z.land h 255; Z.land (Z.shiftr h 8) 255]
  ++ rasterize displayWidth displayHeight data.

Section WithHost.
Context `{Host}.

(** [printImage]: [None] stands for a promise that is never settled, which
    is what happens when the [onload] handler throws: [getImageData] does
    so for a canvas whose height came out as zero. *)
Definition printImage (imageUrl : jsstring) (printerDPI targetWidthPx : Z)
  : option (list Z) :=
  if negb (JSString.truthy imageUrl) then Some []
  else
    match loadImage imageUrl with
    | None => Some []
    | Some (width, height) =>
        let aspectRatio := div (ofZ width) (ofZ height) in
        let displayWidth := targetWidthPx in
        let displayHeight := round (div (ofZ targetWidthPx) aspectRatio) in
        let canvasWidth := displayWidth mod 2 ^ 32 in
        let canvasHeight :=
          match toInteger displayHeight with
          | Some h => h mod 2 ^ 32
          | None => 0
          end in
        if (canvasWidth =? 0) || (canvasHeight =? 0) then None
        else
          let data := getImageData imageUrl canvasWidth canvasHeight in
          match toInteger displayHeight with
          | Some h =>
              Some (rasterCommands (Z.to_nat displayWidth) (Z.to_nat h) data)
          | None => None
          end
    end.

End WithHost.

(** *** Formatting helpers: each appends to [commands] *)

Definition setAlignment (alignment : jsstring) (commands : list Z) : list Z :=
  let mode :=
    if str_eqb alignment (js "right") then 2
    else if str_eqb alignment (js "center") then 1 else 0 in
  commands ++ [ESC; 97; mode].

Definition setBold (enable : bool) (commands : list Z) : list Z :=
  commands ++ [ESC; 69; if enable then 1 else 0].

Definition setDoubleSize (enable : bool) (commands : list Z) : list Z :=
  let mode := if enable then 48 else 0 in
  commands ++ [ESC; 33; mode].

Definition printLine (text : jsstring) (commands : list Z) : list Z :=
  commands ++ encodeText text ++ [LF].

Definition printSeparator (char : jsstring) (width : nat) (commands : list Z)
  : list Z :=
  printLine (JSString.repeat char width) commands.

(** [commands.push(...encodeText(text))] *)
Definition printText (text : jsstring) (commands : list Z) : list Z :=
  commands ++ encodeText text.

Definition TOTAL_RECEIPT_WIDTH : nat := 42.
Definition DOUBLE_SIZE_CHARS_PER_LINE : nat := 14.
Definition SNO_COL_WIDTH : nat := 3.
Definition ITEM_NAME_COL_WIDTH : nat := TOTAL_RECEIPT_WIDTH - SNO_COL_WIDTH - 1.
Definition QTY_RATE_AMOUNT_LINE_INDENT : nat := SNO_COL_WIDTH + 1.
Definition QTY_HEADER_WIDTH : nat := 5.
Definition RATE_HEADER_WIDTH : nat := 8.
Definition AMOUNT_HEADER_WIDTH : nat := 8.

Notation "c |> f" := (f c) (at level 45, left associativity, only parsing).

(** One turn of the company-name loop: the line it prints (before it is
    trimmed) and what remains of the name. *)
Definition companyNameStep (remainingCompanyName : jsstring)
  : jsstring * jsstring :=
  let line := substring 0 DOUBLE_SIZE_CHARS_PER_LINE remainingCompanyName in
  match lastIndexOf space line with
  | Some lastSpaceIndex =>
      if bool_decide (0 < lastSpaceIndex)%nat
         && bool_decide (length line = DOUBLE_SIZE_CHARS_PER_LINE)
      then (substring 0 lastSpaceIndex line,
            substringFrom (lastSpaceIndex + 1) remainingCompanyName)
      else (line, substringFrom DOUBLE_SIZE_CHARS_PER_LINE remainingCompanyName)
  | None =>
      (line, substringFrom DOUBLE_SIZE_CHARS_PER_LINE remainingCompanyName)
  end.

(** [while (remainingCompanyName.length > 0) { ... printLine(line.trim()); }] *)
Equations companyNameLoop (remainingCompanyName : jsstring)
  (commands : list Z) : list Z by wf (length remainingCompanyName) lt :=
companyNameLoop [] commands := commands;
companyNameLoop (c :: r) commands :=
  companyNameLoop (snd (companyNameStep (c :: r)))
    (commands |> printLine (trim (fst (companyNameStep (c :: r))))).
Next Obligation.
  unfold companyNameStep, substringFrom, DOUBLE_SIZE_CHARS_PER_LINE.
  destruct (lastIndexOf _ _) as [i|]; [destruct (_ && _)|];
    cbn [snd]; rewrite length_drop; cbn [length]; lia.
Qed.

(** The lines of the company-name loop before they are trimmed, in the
    order in which the loop prints them. *)
Equations companyNameChunks (remainingCompanyName : jsstring)
  : list jsstring by wf (length remainingCompanyName) lt :=
companyNameChunks [] := [];
companyNameChunks (c :: r) :=
  fst (companyNameStep (c :: r))
  :: companyNameChunks (snd (companyNameStep (c :: r))).
Next Obligation.
  unfold companyNameStep, substringFrom, DOUBLE_SIZE_CHARS_PER_LINE.
  destruct (lastIndexOf _ _) as [i|]; [destruct (_ && _)|];
    cbn [snd]; rewrite length_drop; cbn [length]; lia.
Qed.

(** The continuation lines of a long item name:
    [while (remainingItemName.length > 0) { ... }] *)
Equations itemNameLoop (indentForWrappedName remainingItemName : jsstring)
  (commands : list Z) : list Z by wf (length remainingItemName) lt :=
itemNameLoop indent [] commands := commands;
itemNameLoop indent (c :: r) commands :=
  let line := substring 0 (TOTAL_RECEIPT_WIDTH - 4) (c :: r) in
  itemNameLoop indent (substringFrom (TOTAL_RECEIPT_WIDTH - 4) (c :: r))
    (commands |> printLine (indent ++ line)).
Next Obligation.
  change (length (drop 38 (c :: r)) < length (c :: r))%nat.
  rewrite length_drop. cbn [length]. lia.
Qed.

(** The loops that split the narration and the terms into lines:
    [while (currentNarration.length > 0) { ... }] *)
Equations textBlockLoop (current : jsstring) (commands : list Z)
  : list Z by wf (length current) lt :=
textBlockLoop [] commands := commands;
textBlockLoop (c :: r) commands :=
  let line := substring 0 TOTAL_RECEIPT_WIDTH (c :: r) in
  textBlockLoop (substringFrom TOTAL_RECEIPT_WIDTH (c :: r))
    (commands |> printLine line).
Next Obligation.
  change (length (drop 42 (c :: r)) < length (c :: r))%nat.
  rewrite length_drop. cbn [length]. lia.
Qed.

(** [String(item.sNo)] *)
Definition stringOfSNo (sNo : option Z) : jsstring :=
  match sNo with
  | None => js "undefined"
  | Some n => if n <? 0 then js "-" ++ decimal (- n) else decimal n
  end.

(** [s.split('\n').forEach(line => printLine(line))] *)
Definition printLines (s : jsstring) (commands : list Z) : list Z :=
  foldl (fun commands line => printLine line commands) commands (split 10 s).

Definition separator (settings : Settings) (commands : list Z) : list Z :=
  printSeparator (orElse (lineSeparator settings) (js "-"))
                 TOTAL_RECEIPT_WIDTH commands.

(** 1. Company Header *)
Definition companyHeader (xmlData : Invoice) (settings : Settings)
           (commands : list Z) : list Z :=
  commands
  |> setAlignment (headerAlignment settings)
  |> setBold true
  |> setDoubleSize true
  |> (if JSString.truthy (company_name (company xmlData))
      then companyNameLoop (company_name (company xmlData))
      else id)
  |> setDoubleSize false
  |> setBold false
  |> (match company_address (company xmlData) with
      | Some a => if JSString.truthy a then printLines a else id
      | None => id
      end)
  |> (match company_phone (company xmlData) with
      | Some p => if JSString.truthy p then printLine p else id
      | None => id
      end)
  |> (if JSString.truthy (company_gstin (company xmlData))
      then printLine (js "GSTIN: " ++ company_gstin (company xmlData))
      else id)
  |> printLine [].

(** 2. Invoice Type *)
Definition invoiceType (xmlData : Invoice) (settings : Settings)
           (commands : list Z) : list Z :=
  commands
  |> separator settings
  |> setAlignment (js "center")
  |> setBold true
  |> (if JSString.truthy (heading xmlData)
      then printLine (heading xmlData) else id)
  |> setBold false
  |> separator settings
  |> printLine [].

(** 3. Order Details *)
Definition orderDetails (xmlData : Invoice) (settings : Settings)
           (commands : list Z) : list Z :=
  commands
  |> setAlignment (js "left")
  |> setBold (labelBold settings)
  |> printText (js "Voucher No: ")
  |> setBold (valueBold settings)
  |> printLine (orElse (order_number (order xmlData)) [])
  |> setBold (labelBold settings)
  |> printText (js "Date: ")
  |> setBold (valueBold settings)
  |> printLine (orElse (order_date (order xmlData)) [])
  |> setBold (labelBold settings)
  |> printText (js "Entered By: ")
  |> setBold (valueBold settings)
  |> printLine (orElse (order_user (order xmlData)) [])
  |> setBold false
  |> separator settings
  |> printLine [].

(** 4. Party Details *)
Definition partyDetails (xmlData : Invoice) (commands : list Z) : list Z :=
  if JSString.truthy (party_name (party xmlData)) then
    commands
    |> setBold true
    |> printLine (js "PARTY DETAILS:")
    |> setBold false
    |> printLine (party_name (party xmlData))
    |> (if JSString.truthy (party_address (party xmlData))
        then printLines (party_address (party xmlData)) else id)
    |> (if JSString.truthy (party_gstin (party xmlData))
        then printLine (js "GSTIN: " ++ party_gstin (party xmlData)) else id)
    |> printLine []
  else commands.

(** 5. Items Table Header *)
Definition itemsTableHeader (settings : Settings) (commands : list Z)
  : list Z :=
  commands
  |> separator settings
  |> setAlignment (js "left")
  |> setBold true
  |> printLine (padEnd SNO_COL_WIDTH (js "S.No") ++ js " "
                ++ padEnd ITEM_NAME_COL_WIDTH (js "Item Name"))
  |> printLine (JSString.repeat (js " ") QTY_RATE_AMOUNT_LINE_INDENT
                ++ padEnd QTY_HEADER_WIDTH (js "Qty") ++ js " "
                ++ padEnd RATE_HEADER_WIDTH (js "Rate") ++ js " "
                ++ padStart AMOUNT_HEADER_WIDTH (js "Amount"))
  |> setBold false
  |> separator settings.

(** The text of the second row of an item. *)
Definition qtyRateAmountText (item : Item) : jsstring :=
  let qty := toFixed 2 (parseFloat (item_qty item)) in
  let rate := toFixed 2 (parseFloat (item_rate item)) in
  let amount := toFixed 2 (parseFloat (item_amount item)) in
  js "Qty: " ++ qty ++ js " @ Rs. " ++ rate ++ js " = Rs. " ++ amount.

(** The callback of [xmlData.items.forEach]. *)
Definition printItem (item : Item) (commands : list Z) : list Z :=
  let sNo := padEnd SNO_COL_WIDTH (stringOfSNo (item_sNo item)) in
  let itemName := item_name item in
  let currentItemNameLine := substring 0 ITEM_NAME_COL_WIDTH itemName in
  let qtyRateAmountText := qtyRateAmountText item in
  let paddingForRightAlign :=
    Nat.max 0 (TOTAL_RECEIPT_WIDTH - length qtyRateAmountText) in
  commands
  |> setBold true
  |> printLine (sNo ++ js " " ++ currentItemNameLine)
  |> setBold false
  |> (if bool_decide (ITEM_NAME_COL_WIDTH < length itemName)%nat
      then itemNameLoop (JSString.repeat (js " ") (SNO_COL_WIDTH + 1))
                        (substringFrom ITEM_NAME_COL_WIDTH itemName)
      else id)
  |> printLine (JSString.repeat (js " ") paddingForRightAlign
                ++ qtyRateAmountText)
  |> printLine [].

(** 6. Items List *)
Definition itemsList (xmlData : Invoice) (commands : list Z) : list Z :=
  (match items xmlData with
   | [] => commands |> printLine (js "No items found.")
   | its => foldl (fun commands item => printItem item commands) commands its
   end)
  |> printLine [].

(** 7. Totals *)
Definition totalsSection (xmlData : Invoice) (settings : Settings)
           (commands : list Z) : list Z :=
  let t := totals xmlData in
  commands
  |> separator settings
  |> setAlignment (js "right")
  |> printLine (js "Sub Total: " ++ orElse (subtotal t) (js "0.00"))
  |> (if ltb zero (parseFloat (cgst t))
      then printLine (js "CGST: " ++ cgst t) else id)
  |> (if ltb zero (parseFloat (sgst t))
      then printLine (js "SGST: " ++ sgst t) else id)
  |> (if ltb zero (parseFloat (igst t))
      then printLine (js "IGST: " ++ igst t) else id)
  |> setBold true
  |> printLine (js "TOTAL: Rs. " ++ orElse (total t) (js "0.00"))
  |> setBold false
  |> printLine [].

(** 8. Amount in Words *)
Definition amountInWordsSection (xmlData : Invoice) (commands : list Z)
  : list Z :=
  match amountInWords xmlData with
  | Some w =>
      if JSString.truthy w then
        commands
        |> setAlignment (js "left")
        |> printLine (js "Amount in Words:")
        |> setBold true
        |> printLine w
        |> setBold false
        |> printLine []
      else commands
  | None => commands
  end.

(** 9. Narration (Remarks) *)
Definition narrationSection (xmlData : Invoice) (settings : Settings)
           (commands : list Z) : list Z :=
  if JSString.truthy (narration xmlData) then
    commands
    |> separator settings
    |> setAlignment (js "center")
    |> setBold true
    |> printLine (js "Remarks:")
    |> setBold false
    |> setAlignment (js "left")
    |> textBlockLoop (narration xmlData)
    |> separator settings
    |> printLine []
  else commands.

(** 10. Terms and Conditions *)
Definition termsSection (xmlData : Invoice) (settings : Settings)
           (commands : list Z) : list Z :=
  match termsAndConditions xmlData with
  | Some currentTerms =>
      if JSString.truthy currentTerms then
        commands
        |> separator settings
        |> setAlignment (js "center")
        |> printLine (js "Terms & Conditions:")
        |> setAlignment (js "left")
        |> textBlockLoop currentTerms
        |> printLine []
      else commands
  | None => commands
  end.

(** 11. Authorized Signatory *)
Definition signatorySection (xmlData : Invoice) (commands : list Z)
  : list Z :=
  match authorizedSignatory xmlData with
  | Some a =>
      if JSString.truthy a then
        commands
        |> setAlignment (js "right")
        |> printLine []
        |> printLine []
        |> printLine a
        |> printLine []
      else commands
  | None => commands
  end.

(** Everything after the logo, up to the feed and the cut. *)
Definition receiptBody (xmlData : Invoice) (settings : Settings)
           (commands : list Z) : list Z :=
  commands
  |> companyHeader xmlData settings
  |> invoiceType xmlData settings
  |> orderDetails xmlData settings
  |> partyDetails xmlData
  |> itemsTableHeader settings
  |> itemsList xmlData
  |> totalsSection xmlData settings
  |> amountInWordsSection xmlData
  |> narrationSection xmlData settings
  |> termsSection xmlData settings
  |> signatorySection xmlData
  |> setAlignment (js "center")
  |> printLine (js "Thank you for your business!")
  |> printLine []
  |> (fun commands => commands ++ [LF; LF; LF; LF; LF])
  |> (fun commands => commands ++ [GS; 86; 0]).

Section WithHost.
Context `{Host}.

(** 0. Print Logo: [None] when the awaited [printImage] never settles. *)
Definition logoSection (settings : Settings) (commands : list Z)
  : option (list Z) :=
  if JSString.truthy (logoUrl settings) then
    let commands := commands |> setAlignment (js "center") in
    logoCommands ← printImage (logoUrl settings) 203 384;
    Some ((commands ++ logoCommands) |> printLine [])
  else Some commands.

(** [generateEscPosCommands]: the bytes of the resolved [Uint8Array]. *)
Definition generateEscPosCommands (xmlData : option Invoice)
           (settings : Settings) : option (list Z) :=
  match xmlData with
  | None => Some []
  | Some xmlData =>
      let commands := [ESC; 64] in
      commands ← logoSection settings commands;
      Some (receiptBody xmlData settings commands)
  end.

End WithHost.

End Generator.

(** ** Concrete platforms and documents *)

Module Examples.

Import Extractor Generator.

(** Upper-casing of the ASCII letters, which is what [toUpperCase] does on
    a string of ASCII characters. *)
Definition asciiUpper (s : jsstring) : jsstring :=
  map (fun c => if (97 <=? c) && (c <=? 122) then c - 32 else c) s.

(** A platform whose XML parser yields the document [doc] and on which no
    image can be loaded. *)
Definition hostOf (doc : Node) : Host :=
  {| parseFromString := fun _ => doc;
     toUpperCase := asciiUpper;
     loadImage := fun _ => None;
     getImageData := fun _ _ _ => [] |}.

Definition elem (tag : string) (children : list Node) : Node :=
  Element (js tag) children.

Definition field (tag text : string) : Node :=
  Element (js tag) [Text (js text)].

Definition entry (list name qty rate amount : string) : Node :=
  elem list [field "STOCKITEMNAME" name; field "ACTUALQTY" qty;
             field "RATE" rate; field "AMOUNT" amount].

Definition ledger (name amount : string) : Node :=
  elem "LEDGERENTRIES.LIST" [field "LEDGERNAME" name; field "AMOUNT" amount].

Definition envelope (voucher : list Node) : Node :=
  elem "#document" [elem "ENVELOPE" [elem "VOUCHER" voucher]].

(** A sales order whose items are only in the out-going list. *)
Definition salesOrderOut : Node :=
  envelope [field "VOUCHERTYPENAME" "Sales Order";
            entry "INVENTORYENTRIESOUT.LIST" "Widget" "10 NOS" "25.00/NOS" "-250.00"].

(** A voucher of a type named "Stock Journal Sales" with entries in both
    lists. *)
Definition stockJournalSales : Node :=
  envelope [field "VOUCHERTYPENAME" "Stock Journal Sales";
            entry "ALLINVENTORYENTRIES.LIST" "Widget" "10 NOS" "25.00/NOS" "-250.00";
            entry "INVENTORYENTRIESOUT.LIST" "Gadget" "2 NOS" "5.00/NOS" "-10.00"].

(** Two items of 0.004 each. *)
Definition smallAmounts : Node :=
  envelope [field "VOUCHERTYPENAME" "Sales";
            entry "ALLINVENTORYENTRIES.LIST" "Screw" "1 NOS" "0.004/NOS" "-0.004";
            entry "ALLINVENTORYENTRIES.LIST" "Washer" "1 NOS" "0.004/NOS" "-0.004"].

(** A negative rate, a rate that is not a number, and a negative tax. *)
Definition oddRates : Node :=
  envelope [field "VOUCHERTYPENAME" "Sales";
            entry "ALLINVENTORYENTRIES.LIST" "Return" "1 NOS" "-5/NOS" "5.00";
            entry "ALLINVENTORYENTRIES.LIST" "Misc" "1 NOS" "abc" "xyz";
            ledger "CGST" "-9"].

Definition widgetInvoice : Invoice :=
  {| heading := js "SALES ORDER";
     company := {| company_name := js "SUPERLONG COMPANY NAME PRIVATE LIMITED";
                   company_gstin := []; company_address := None;
                   company_phone := None |};
     order := {| order_number := js "SO542"; order_date := js "09-07-2025";
                 order_user := js "admin" |};
     party := {| party_name := js "Buyer"; party_address := [];
                 party_gstin := [] |};
     items := [ {| item_name := js "Widget"; item_qty := js "10";
                   item_rate := js "25.00"; item_amount := js "250.00";
                   item_sNo := Some 1 |} ];
     totals := {| subtotal := js "250.00"; igst := js "450.00";
                  cgst := js "0.00"; sgst := js "0.00";
                  total := js "250.00" |};
     narration := []; amountInWords := None; termsAndConditions := None;
     authorizedSignatory := None |}.

Definition plainSettings : Settings :=
  {| logoUrl := []; headerAlignment := js "center"; lineSeparator := js "-";
     labelBold := true; valueBold := false |}.

(** The RGBA data of a 16 by 16 canvas that is black throughout. *)
Definition black16 : list Z := concat (replicate (16 * 16) [0; 0; 0; 255]).

End Examples.

(** * Vocabulary of the properties *)

Import Extractor Generator.

(** Every helper of the generator leaves what is in [commands] in place
    and appends to it. *)
Definition Appends (f : list Z -> list Z) : Prop :=
  forall commands, f commands = commands ++ f [].

(** What follows the totals in the stream. *)
Definition afterTotals (xmlData : Invoice) (settings : Settings)
  (commands : list Z) : list Z :=
  commands
  |> amountInWordsSection xmlData
  |> narrationSection xmlData settings
  |> termsSection xmlData settings
  |> signatorySection xmlData
  |> setAlignment (js "center")
  |> printLine (js "Thank you for your business!")
  |> printLine []
  |> (fun commands => commands ++ [LF; LF; LF; LF; LF])
  |> (fun commands => commands ++ [GS; 86; 0]).

(** Whether the pixel in column [x] of row [y] of a canvas [displayWidth]
    wide is printed: the test of the inner loop of the raster conversion. *)
Definition ink (displayWidth : nat) (data : list Z) (y x : nat) : bool :=
  ltb (luminance data ((y * displayWidth + x) * 4)) (ofZ 128).

(** The pixels of a canvas in the order in which the loops visit them. *)
Definition pixels (displayWidth displayHeight : nat) : list (nat * nat) :=
  flat_map (fun y => map (fun x => (y, x)) (seq 0 displayWidth))
           (seq 0 displayHeight).

(** Plotting a list of pixels, one after the other. *)
Definition plotAll (displayWidth : nat) (data : list Z)
  (ps : list (nat * nat)) (bitmapData : list Z) : list Z :=
  foldl (fun bm p => plot displayWidth ((displayWidth + 7) / 8) data p.1 p.2 bm)
        bitmapData ps.

(** The words of a string: the non-empty runs between its spaces. *)
Definition words (s : jsstring) : list jsstring :=
  List.filter (fun w => negb (bool_decide (w = []))) (split space s).

(** A non-negative decimal numeral with exactly two fraction digits. *)
Definition isFixed2 (s : jsstring) : bool :=
  match rev s with
  | d2 :: d1 :: dot :: i :: ip =>
      isDigit d2 && isDigit d1 && (dot =? 46) && forallb isDigit (i :: ip)
  | _ => false
  end.

(** The same, possibly with a minus sign in front. *)
Definition isSignedFixed2 (s : jsstring) : bool :=
  isFixed2 s
  || match s with
     | c :: r => (c =? 45) && isFixed2 r
     | [] => false
     end.

(** The numbers [toFixed] writes in decimal notation: the finite ones
    whose magnitude is below [10 ^ 21]. *)
Definition decimalRange (x : number) : bool :=
  match x with
  | S754_zero _ => true
  | S754_finite _ m e =>
      let '(num, den) := magnitude m e in negb (10 ^ 21 * den <=? num)
  | _ => false
  end.

(** The numbers that are not negative: [NaN], the zeros, the positive
    numbers and positive infinity. *)
Definition unsigned (x : number) : bool :=
  match x with
  | S754_finite s _ _ | S754_infinity s => negb s
  | _ => true
  end.

(** Whether a string begins with a minus sign. *)
Definition startsWithMinus (s : jsstring) : bool :=
  match s with
  | c :: _ => c =? 45
  | [] => false
  end.

(** A monetary string [s] of the number [x]: the [toFixed(2)] text of [x],
    which begins with a minus sign exactly when [x] is negative and which,
    less that sign, is a decimal numeral with two fraction digits whenever
    [x] is in the decimal range. *)
Definition MoneyOf (x : number) (s : jsstring) : Prop :=
  s = toFixed 2 x
  /\ startsWithMinus s = negb (unsigned x)
  /\ (decimalRange x = true ->
      isFixed2 (if startsWithMinus s then drop 1 s else s) = true).

(** The inventory entries of a voucher, of the three kinds. *)
Definition inventoryEntries (voucher : Node) : list Node :=
  getAll ALLINVENTORYENTRIES voucher
  ++ getAll INVENTORYENTRIESIN voucher
  ++ getAll INVENTORYENTRIESOUT voucher.

(** A string that begins with a digit, with "N" or with "I". *)
Definition headOk (s : jsstring) : bool :=
  match s with
  | [] => true
  | c :: _ => isDigit c || (c =? 78) || (c =? 73)
  end.

(** Further documents. *)
Module MoreExamples.

Import Examples.

(** A delivery note whose items are only in the all-inventory-entries
    list. *)
Definition deliveryNote : Node :=
  envelope [field "VOUCHERTYPENAME" "Delivery Note";
            entry "ALLINVENTORYENTRIES.LIST" "Widget" "10 NOS" "25.00/NOS" "-250.00"].

(** A stock journal with entries in the all-inventory-entries list only. *)
Definition stockJournal : Node :=
  envelope [field "VOUCHERTYPENAME" "Stock Journal";
            entry "ALLINVENTORYENTRIES.LIST" "Widget" "10 NOS" "25.00/NOS" "-250.00"].

(** A receipt note with one entry in each of the three lists. *)
Definition receiptNote : Node :=
  envelope [field "VOUCHERTYPENAME" "Receipt Note";
            entry "INVENTORYENTRIESOUT.LIST" "Out" "1 NOS" "1/NOS" "1";
            entry "INVENTORYENTRIESIN.LIST" "In" "1 NOS" "1/NOS" "1";
            entry "ALLINVENTORYENTRIES.LIST" "All" "1 NOS" "1/NOS" "1"].

(** A voucher of a type named "Sales Delivery". *)
Definition salesDelivery : Node :=
  envelope [field "VOUCHERTYPENAME" "Sales Delivery";
            entry "INVENTORYENTRIESOUT.LIST" "Out" "1 NOS" "1/NOS" "1";
            entry "ALLINVENTORYENTRIES.LIST" "All" "1 NOS" "1/NOS" "1"].

(** A sales voucher of a party with a name and two address lines. *)
Definition buyerWithAddress : Node :=
  envelope
    [field "VOUCHERTYPENAME" "Sales";
     field "PARTYNAME" "Buyer";
     elem "BASICBUYERADDRESS.LIST"
       [field "BASICBUYERADDRESS" "12 High Street";
        field "BASICBUYERADDRESS" " Pune "]].

(** The voucher element of an [envelope]. *)
Definition voucherOf (doc : Node) : Node :=
  match querySelector [js "VOUCHER"] doc with
  | Some v => v
  | None => Text []
  end.

End MoreExamples.

(** * Properties *)

(** ** The command stream *)

Lemma appends_id : Appends id.
Proof. intros c. by rewrite app_nil_r. Qed.

Lemma appends_push b : Appends (fun c => c ++ b).
Proof. by intros c. Qed.

Lemma appends_comp f g :
  Appends f -> Appends g -> Appends (fun c => g (f c)).
Proof.
  intros Hf Hg c. rewrite (Hg (f c)), (Hg (f [])), (Hf c).
  by rewrite app_assoc.
Qed.

Lemma appends_if (b : bool) f g :
  Appends f -> Appends g -> Appends (if b then f else g).
Proof. by destruct b. Qed.

Lemma appends_foldl {A} (step : A -> list Z -> list Z) (l : list A) :
  (forall a, Appends (step a)) ->
  Appends (fun c => foldl (fun c a => step a c) c l).
Proof.
  intros Hs. induction l as [|a l IH]; intros c; cbn [foldl].
  - by rewrite app_nil_r.
  - rewrite IH, (IH (step a [])), (Hs a c). by rewrite app_assoc.
Qed.

Lemma appends_setAlignment a : Appends (setAlignment a).
Proof. by intros c. Qed.

Lemma appends_setBold b : Appends (setBold b).
Proof. by intros c. Qed.

Lemma appends_setDoubleSize b : Appends (setDoubleSize b).
Proof. by intros c. Qed.

Lemma appends_printLine t : Appends (printLine t).
Proof. by intros c. Qed.

Lemma appends_printText t : Appends (printText t).
Proof. intros c. unfold printText. by rewrite app_nil_l. Qed.

Lemma appends_separator st : Appends (separator st).
Proof. by intros c. Qed.

Lemma appends_printLines s : Appends (printLines s).
Proof.
  unfold printLines.
  apply (appends_foldl (fun line c => printLine line c)).
  intros a. apply appends_printLine.
Qed.

Lemma companyNameLoop_chunks name commands :
  companyNameLoop name commands =
  commands ++ flat_map (fun l => printLine (trim l) []) (companyNameChunks name).
Proof.
  funelim (companyNameLoop name commands); simp companyNameChunks.
  - by rewrite app_nil_r.
  - rewrite H. cbn [flat_map]. unfold printLine.
    by rewrite app_nil_l, <- !app_assoc.
Qed.

Lemma appends_companyNameLoop name : Appends (companyNameLoop name).
Proof.
  intros c. by rewrite (companyNameLoop_chunks name c), (companyNameLoop_chunks name []).
Qed.

Lemma appends_itemNameLoop indent s : Appends (itemNameLoop indent s).
Proof.
  remember (length s) as n eqn:Hn. revert s Hn.
  induction n as [n IH] using lt_wf_ind. intros s Hn c.
  destruct s as [|x r]; simp itemNameLoop.
  - by rewrite app_nil_r.
  - cbn zeta.
    assert (Hlt : (length (substringFrom (TOTAL_RECEIPT_WIDTH - 4) (x :: r)) < n)%nat).
    { subst n. unfold substringFrom. rewrite length_drop. cbn. lia. }
    rewrite (IH _ Hlt _ eq_refl (printLine _ c)).
    rewrite (IH _ Hlt _ eq_refl (printLine _ [])).
    unfold printLine. by rewrite app_nil_l, <- !app_assoc.
Qed.

Lemma appends_textBlockLoop s : Appends (textBlockLoop s).
Proof.
  remember (length s) as n eqn:Hn. revert s Hn.
  induction n as [n IH] using lt_wf_ind. intros s Hn c.
  destruct s as [|x r]; simp textBlockLoop.
  - by rewrite app_nil_r.
  - cbn zeta.
    assert (Hlt : (length (substringFrom TOTAL_RECEIPT_WIDTH (x :: r)) < n)%nat).
    { subst n. unfold substringFrom. rewrite length_drop. cbn. lia. }
    rewrite (IH _ Hlt _ eq_refl (printLine _ c)).
    rewrite (IH _ Hlt _ eq_refl (printLine _ [])).
    unfold printLine. by rewrite app_nil_l, <- !app_assoc.
Qed.

Create HintDb appends.
#[local] Hint Resolve appends_id appends_push appends_setAlignment appends_setBold
  appends_setDoubleSize appends_printLine appends_printText appends_separator
  appends_printLines appends_companyNameLoop appends_itemNameLoop
  appends_textBlockLoop : appends.

Ltac solve_appends :=
  first
    [ solve [eauto with appends]
    | apply appends_id
    | match goal with
      | |- Appends (fun c => foldl _ c _) =>
          apply appends_foldl; intros; solve_appends
      | |- Appends (if _ then _ else _) => apply appends_if; solve_appends
      | |- Appends (match ?o with Some _ => _ | None => _ end) =>
          destruct o; solve_appends
      | |- Appends (fun c => @?f c ++ ?b) =>
          apply (appends_comp f (fun c => c ++ b)); solve_appends
      | |- Appends (fun c => ?g (@?f c)) =>
          apply (appends_comp f g); solve_appends
      end ].

Lemma appends_printItem item : Appends (printItem item).
Proof. unfold printItem. cbn zeta. solve_appends. Qed.

Lemma appends_totalsSection inv st : Appends (totalsSection inv st).
Proof. unfold totalsSection. cbn zeta. solve_appends. Qed.

Lemma appends_amountInWordsSection inv : Appends (amountInWordsSection inv).
Proof. unfold amountInWordsSection. destruct (amountInWords inv); [destruct (JSString.truthy _)|]; solve_appends. Qed.

Lemma appends_narrationSection inv st : Appends (narrationSection inv st).
Proof. unfold narrationSection. destruct (JSString.truthy _); solve_appends. Qed.

Lemma appends_termsSection inv st : Appends (termsSection inv st).
Proof.
  unfold termsSection.
  destruct (termsAndConditions inv); [destruct (JSString.truthy _)|]; solve_appends.
Qed.

Lemma appends_signatorySection inv : Appends (signatorySection inv).
Proof.
  unfold signatorySection.
  destruct (authorizedSignatory inv); [destruct (JSString.truthy _)|]; solve_appends.
Qed.

#[local] Hint Resolve appends_printItem appends_totalsSection
  appends_amountInWordsSection appends_narrationSection appends_termsSection
  appends_signatorySection : appends.

Lemma appends_afterTotals inv st : Appends (afterTotals inv st).
Proof. unfold afterTotals. solve_appends. Qed.

Lemma receiptBody_split inv st c :
  receiptBody inv st c =
  itemsList inv (itemsTableHeader st (partyDetails inv (orderDetails inv st
    (invoiceType inv st (companyHeader inv st c)))))
  ++ totalsSection inv st [] ++ afterTotals inv st [].
Proof.
  unfold receiptBody.
  set (X := itemsList inv _).
  transitivity (afterTotals inv st (totalsSection inv st X)); [reflexivity|].
  rewrite (appends_afterTotals inv st (totalsSection inv st X)).
  rewrite (appends_totalsSection inv st X).
  by rewrite <- app_assoc.
Qed.

Lemma generate_some `{Host} inv st out :
  generateEscPosCommands (Some inv) st = Some out ->
  exists commands, out = receiptBody inv st commands.
Proof.
  unfold generateEscPosCommands. intros Hg.
  destruct (logoSection st [ESC; 64]) as [c|]; [|done].
  exists c. by injection Hg.
Qed.
(** C10. Invoked with an absent document, the generator resolves to an
    empty byte buffer: no initialize, feed or cut bytes are emitted. *)
Theorem generate_without_document `{Host} (settings : Settings) :
  generateEscPosCommands None settings = Some [].
Proof. reflexivity. Qed.

(** C6. Whatever the invoice and the settings, a generated command stream
    ends with five line feeds (0x0A) followed by the full cut GS V 0
    (0x1D 0x56 0x00). *)
Theorem stream_ends_with_feed_and_cut `{Host} (inv : Invoice)
    (settings : Settings) (out : list Z) :
  generateEscPosCommands (Some inv) settings = Some out ->
  exists body, out = body ++ [10; 10; 10; 10; 10] ++ [29; 86; 0].
Proof.
  intros Hg. destruct (generate_some _ _ _ Hg) as [c ->].
  unfold receiptBody. eexists. by rewrite <- app_assoc.
Qed.

Lemma stream_ends_with_feed_and_cut_witness :
  exists body,
    receiptBody Examples.widgetInvoice Examples.plainSettings [27; 64] =
    body ++ [10; 10; 10; 10; 10] ++ [29; 86; 0].
Proof.
  apply (stream_ends_with_feed_and_cut (H := Examples.hostOf (Text []))
           Examples.widgetInvoice Examples.plainSettings).
  vm_compute. reflexivity.
Defined.



Lemma repeat_space n : JSString.repeat (js " ") n = replicate n 32.
Proof.
  unfold JSString.repeat. induction n as [|n IH]; [done|].
  cbn [replicate concat]. by rewrite IH.
Qed.

Lemma foldl_printItem_elem item its c :
  item ∈ its ->
  exists before after,
    foldl (fun commands item => printItem item commands) c its =
    before ++ printItem item [] ++ after.
Proof.
  intros [l1 [l2 ->]]%list_elem_of_split.
  rewrite foldl_app. cbn [foldl].
  set (F := fun c => foldl (fun commands item => printItem item commands) c l2).
  change (foldl _ (printItem item ?x) l2) with (F (printItem item x)).
  assert (HF : Appends F).
  { apply (appends_foldl (fun item c => printItem item c)).
    intros a. apply appends_printItem. }
  rewrite (HF (printItem item _)), (appends_printItem item (foldl _ c l1)).
  eexists _, (F []). by rewrite <- app_assoc.
Qed.

(** ** The extractor *)

Section Extraction.
Context `{Host}.

(** What a successful extraction returns, field by field. *)
Lemma parseTallyXML_Some xml inv :
  parseTallyXML xml = Some inv ->
  let xmlDoc := parseFromString (replaceAll (js "&#4;") [] xml) in
  querySelector [js "parsererror"] xmlDoc = None
  /\ exists voucher,
       querySelector [js "VOUCHER"] xmlDoc = Some voucher
       /\ items inv = assignSNo (selectItems voucher)
       /\ subtotal (totals inv) = toFixed 2 (sumAmounts (items inv))
       /\ heading inv = selectHeading (voucherTypeName voucher)
       /\ (let ledgerEntries := getAll [js "LEDGERENTRIES.LIST"] voucher in
           igst (totals inv) = toFixed 2 (findAmount ledgerEntries "IGST")
           /\ cgst (totals inv) = toFixed 2 (findAmount ledgerEntries "CGST")
           /\ sgst (totals inv) =
              toFixed 2 (if JSNumber.truthy (findAmount ledgerEntries "SGST")
                         then findAmount ledgerEntries "SGST"
                         else findAmount ledgerEntries "SGST/UTGST")
           /\ total (totals inv) =
              match find (fun n => str_eqb (get "ISPARTYLEDGER" n) (js "Yes"))
                         ledgerEntries with
              | Some p => toFixed 2 (abs (parseFloatOr0 (get "AMOUNT" p)))
              | None => toFixed 2 (sumAmounts (items inv))
              end).
Proof.
  unfold parseTallyXML, parseBody. cbn zeta.
  destruct (querySelector [js "parsererror"] _) as [pe|]; [done|].
  destruct (querySelector [js "VOUCHER"] _) as [v|]; [|done].
  cbn [bind tryCatch]. intros [= <-]. split; [done|].
  exists v. cbn [items totals subtotal heading igst cgst sgst total].
  repeat split; done.
Qed.

Lemma parseTallyXML_None xml :
  parseTallyXML xml = None <->
  is_Some (querySelector [js "parsererror"]
             (parseFromString (replaceAll (js "&#4;") [] xml)))
  \/ querySelector [js "VOUCHER"]
       (parseFromString (replaceAll (js "&#4;") [] xml)) = None.
Proof.
  unfold parseTallyXML, parseBody. cbn zeta.
  destruct (querySelector [js "parsererror"] _) as [pe|];
    [cbn; split; [intros _; left; eauto|done]|].
  destruct (querySelector [js "VOUCHER"] _) as [v|]; cbn [bind tryCatch].
  - split; [done|]. intros [[? [=]]|[=]].
  - split; [by right|done].
Qed.

End Extraction.

(** C9. The extractor returns either nothing at all or a complete invoice:
    it returns the failure value exactly when its body throws, which is
    exactly when the parser reported an error or the document has no
    VOUCHER element; otherwise every part of the invoice is filled in from
    the voucher. *)
Theorem extraction_all_or_nothing `{Host} (xml : jsstring) :
  let xmlDoc := parseFromString (replaceAll (js "&#4;") [] xml) in
  (parseTallyXML xml = None <-> exists message, parseBody xml = Throw message)
  /\ (parseTallyXML xml = None <->
      is_Some (querySelector [js "parsererror"] xmlDoc)
      \/ querySelector [js "VOUCHER"] xmlDoc = None)
  /\ match parseTallyXML xml with
     | None => True
     | Some inv =>
         exists voucher,
           querySelector [js "VOUCHER"] xmlDoc = Some voucher
           /\ items inv = assignSNo (selectItems voucher)
           /\ subtotal (totals inv) = toFixed 2 (sumAmounts (items inv))
           /\ heading inv = selectHeading (voucherTypeName voucher)
           /\ narration inv = get "NARRATION" voucher
           /\ order_number (order inv) = get "VOUCHERNUMBER" voucher
           /\ party_name (party inv) = get "PARTYNAME" voucher
     end.
Proof.
  intros xmlDoc. split; [|split].
  - unfold parseTallyXML. destruct (parseBody xml) as [inv|m]; cbn.
    + split; [done|]. by intros [? [=]].
    + split; [eauto|done].
  - apply parseTallyXML_None.
  - unfold parseTallyXML, parseBody. cbn zeta. fold xmlDoc.
    destruct (querySelector [js "parsererror"] xmlDoc) as [pe|]; [done|].
    destruct (querySelector [js "VOUCHER"] xmlDoc) as [v|]; [|done].
    cbn. exists v. repeat split; done.
Qed.

(** C2, as amended. For a voucher whose upper-cased type contains "SALES
    ORDER" or "SALES": when the all-inventory-entries list yields no item,
    the items are those of the out-going list, whatever else the type or
    the object view contain; when it yields items, the items are these and
    only these, unless the rule that is tested first applies (a type that
    also contains "STOCK JOURNAL", or an object view that contains
    "CONSUMPTION VOUCHER VIEW"), in which case they are those of the
    out-going list. *)
Theorem sales_items_fallback `{Host} (xml : jsstring) (inv : Invoice)
    (voucher : Node) :
  parseTallyXML xml = Some inv ->
  querySelector [js "VOUCHER"]
    (parseFromString (replaceAll (js "&#4;") [] xml)) = Some voucher ->
  includes (voucherTypeName voucher) (js "SALES ORDER")
  || includes (voucherTypeName voucher) (js "SALES") = true ->
  let allItems := parseItemsFromList (getAll ALLINVENTORYENTRIES voucher) in
  let outItems := parseItemsFromList (getAll INVENTORYENTRIESOUT voucher) in
  (allItems = [] -> items inv = assignSNo outItems)
  /\ (allItems <> [] ->
      items inv =
      assignSNo
        (if includes (voucherTypeName voucher) (js "STOCK JOURNAL")
            || includes (objView voucher) (js "CONSUMPTION VOUCHER VIEW")
         then outItems else allItems)).
Proof.
  intros Hp Hv Hs allItems outItems.
  destruct (parseTallyXML_Some _ _ Hp) as (_ & v & Hv' & -> & _).
  rewrite Hv in Hv'. injection Hv' as <-.
  unfold selectItems. cbn zeta. rewrite Hs. fold allItems outItems.
  destruct (includes (voucherTypeName voucher) (js "STOCK JOURNAL")
            || includes (objView voucher) (js "CONSUMPTION VOUCHER VIEW")).
  - done.
  - split.
    + intros ->. done.
    + intros Hne. destruct allItems; done.
Qed.

Lemma sales_items_fallback_witness :
  (let H := Examples.hostOf Examples.salesOrderOut in
   option_map (fun inv => map item_name (items inv)) (parseTallyXML [])
   = Some [js "Widget"])
  /\ (let H := Examples.hostOf Examples.smallAmounts in
      option_map (fun inv => map item_name (items inv)) (parseTallyXML [])
      = Some [js "Screw"; js "Washer"]).
Proof.
  split; intros H.
  - destruct (parseTallyXML []) as [inv|] eqn:Hp; [|by vm_compute in Hp].
    cbn [option_map].
    rewrite (proj1 (sales_items_fallback [] inv
               (MoreExamples.voucherOf Examples.salesOrderOut) Hp
               ltac:(vm_compute; reflexivity) ltac:(vm_compute; reflexivity)));
      vm_compute; reflexivity.
  - destruct (parseTallyXML []) as [inv|] eqn:Hp; [|by vm_compute in Hp].
    cbn [option_map].
    rewrite (proj2 (sales_items_fallback [] inv
               (MoreExamples.voucherOf Examples.smallAmounts) Hp
               ltac:(vm_compute; reflexivity) ltac:(vm_compute; reflexivity)));
      [vm_compute; reflexivity|].
    vm_compute. discriminate.
Defined.

(** C2 as stated fails: this voucher's type contains "SALES" and its
    all-inventory-entries list is not empty, yet the items returned are
    those of the out-going list, because the type also contains "STOCK
    JOURNAL". *)
Lemma sales_items_counterexample :
  let H := Examples.hostOf Examples.stockJournalSales in
  let voucher :=
    Examples.elem "VOUCHER"
      [Examples.field "VOUCHERTYPENAME" "Stock Journal Sales";
       Examples.entry "ALLINVENTORYENTRIES.LIST" "Widget" "10 NOS"
         "25.00/NOS" "-250.00";
       Examples.entry "INVENTORYENTRIESOUT.LIST" "Gadget" "2 NOS"
         "5.00/NOS" "-10.00"] in
  querySelector [js "VOUCHER"] (parseFromString []) = Some voucher
  /\ includes (voucherTypeName voucher) (js "SALES") = true
  /\ map item_name (parseItemsFromList (getAll ALLINVENTORYENTRIES voucher))
     = [js "Widget"]
  /\ option_map (fun inv => map item_name (items inv)) (parseTallyXML [])
     = Some [js "Gadget"].
Proof. vm_compute. repeat split; reflexivity. Qed.

(** C1, as amended. The subtotal is the sum of the item amounts as the
    invoice holds them, that is, of amounts that were each already rounded
    to two fraction digits: they are parsed back, added in list order
    starting from zero, and the sum is formatted to two fraction digits. *)
Theorem subtotal_sums_formatted_amounts `{Host} (xml : jsstring)
    (inv : Invoice) :
  parseTallyXML xml = Some inv ->
  subtotal (totals inv) =
    toFixed 2 (foldl (fun sum amount => add sum (parseFloat amount)) zero
                     (map item_amount (items inv)))
  /\ Forall (fun i => exists el, item_amount i = toFixed 2 (amountValue el))
            (items inv).
Proof.
  intros Hp. destruct (parseTallyXML_Some _ _ Hp) as (_ & v & _ & Hi & -> & _).
  split.
  - unfold sumAmounts. by rewrite foldl_fmap.
  - rewrite Hi. unfold assignSNo. apply list.Forall_forall. intros i Hin.
    apply elem_of_lookup_imap in Hin as (k & i0 & -> & Hk). cbn.
    apply list_elem_of_lookup_2 in Hk. revert Hk. generalize i0. clear.
    apply list.Forall_forall. unfold selectItems. cbn zeta.
    assert (HP : forall l, Forall (fun i => exists el,
                 item_amount i = toFixed 2 (amountValue el))
                 (parseItemsFromList l)).
    { intros l. unfold parseItemsFromList. destruct l; [done|].
      apply list.Forall_forall. intros i [el [-> _]]%list_elem_of_fmap. by exists el. }
    repeat case_match; rewrite ?Forall_app; auto.
Qed.

Lemma subtotal_sums_formatted_amounts_witness :
  let H := Examples.hostOf Examples.salesOrderOut in
  option_map (fun inv => subtotal (totals inv)) (parseTallyXML []) =
  Some (js "250.00").
Proof.
  intros H.
  destruct (parseTallyXML []) as [inv|] eqn:Hp; [|by vm_compute in Hp].
  cbn [option_map].
  rewrite (proj1 (subtotal_sums_formatted_amounts [] inv Hp)).
  assert (Hi : map item_amount (items inv) = [js "250.00"]).
  { assert (Hs : Some (map item_amount (items inv)) = Some [js "250.00"]);
      [|by injection Hs].
    change (option_map (fun inv => map item_amount (items inv)) (Some inv)
            = Some [js "250.00"]).
    rewrite <- Hp. vm_compute. reflexivity. }
  rewrite Hi. vm_compute. reflexivity.
Defined.

(** C1 as stated fails: two items of 0.004 each. The raw amounts add up to
    0.008, which formats to "0.01"; the extractor first rounds each amount
    to "0.00" and reports the subtotal "0.00". *)
Lemma subtotal_counterexample :
  let H := Examples.hostOf Examples.smallAmounts in
  let voucher :=
    Examples.elem "VOUCHER"
      [Examples.field "VOUCHERTYPENAME" "Sales";
       Examples.entry "ALLINVENTORYENTRIES.LIST" "Screw" "1 NOS" "0.004/NOS"
         "-0.004";
       Examples.entry "ALLINVENTORYENTRIES.LIST" "Washer" "1 NOS" "0.004/NOS"
         "-0.004"] in
  let entries := getAll ALLINVENTORYENTRIES voucher in
  querySelector [js "VOUCHER"] (parseFromString []) = Some voucher
  /\ option_map items (parseTallyXML []) = Some (assignSNo (map parseItem entries))
  /\ toFixed 2 (foldl (fun sum el => add sum (amountValue el)) zero entries)
     = js "0.01"
  /\ option_map (fun inv => subtotal (totals inv)) (parseTallyXML [])
     = Some (js "0.00").
Proof. vm_compute. repeat split; reflexivity. Qed.

(** ** The raster conversion *)

Section Raster.
Variables (displayWidth : nat) (data : list Z).
Let bytesPerRow := ((displayWidth + 7) / 8)%nat.

Lemma rasterize_plotAll displayHeight :
  rasterize displayWidth displayHeight data =
  plotAll displayWidth data (pixels displayWidth displayHeight)
          (replicate (bytesPerRow * displayHeight) 0).
Proof.
  unfold rasterize, plotAll, pixels. fold bytesPerRow.
  generalize (replicate (bytesPerRow * displayHeight) 0).
  generalize (seq 0 displayHeight) as ys.
  induction ys as [|y ys IH]; intros bm; [done|].
  cbn [foldl flat_map]. rewrite foldl_app, IH. f_equal.
  generalize (seq 0 displayWidth) as xs. clear. intros xs. revert bm.
  induction xs as [|x xs IH]; intros bm; [done|]. cbn. apply IH.
Qed.

Lemma plotAll_length ps bm : length (plotAll displayWidth data ps bm) = length bm.
Proof.
  revert bm. induction ps as [|[y x] ps IH]; intros bm; [done|].
  unfold plotAll in *. cbn [foldl]. rewrite IH. unfold plot.
  destruct (ltb _ _); [apply length_alter|done].
Qed.

Lemma testbit_set_bit byte b j :
  Z.testbit (Z.lor byte (Z.shiftl 1 (Z.of_nat b))) (Z.of_nat j)
  = Z.testbit byte (Z.of_nat j) || bool_decide (j = b).
Proof.
  rewrite Z.lor_spec, Z.shiftl_1_l, Z.pow2_bits_eqb by lia. f_equal.
  case_bool_decide; lia.
Qed.

(** A bit of the bitmap after some pixels were plotted: set before, or set
    by one of them. *)
Lemma plotAll_testbit ps bm idx byte j :
  bm !! idx = Some byte ->
  exists byte',
    plotAll displayWidth data ps bm !! idx = Some byte'
    /\ Z.testbit byte' (Z.of_nat j) =
       Z.testbit byte (Z.of_nat j)
       || existsb (fun p => ink displayWidth data p.1 p.2
                            && bool_decide (idx = p.1 * bytesPerRow + p.2 / 8)%nat
                            && bool_decide (j = 7 - p.2 mod 8)%nat) ps.
Proof.
  revert bm byte. induction ps as [|[y x] ps IH]; intros bm byte Hb.
  - exists byte. cbn. by rewrite orb_false_r.
  - unfold plotAll in *. cbn [foldl existsb fst snd].
    unfold plot at 2. fold (ink displayWidth data y x).
    destruct (ink displayWidth data y x) eqn:Hink; cbn [andb].
    + destruct (decide (idx = y * bytesPerRow + x / 8)%nat) as [->|Hne].
      * edestruct (IH (alter (fun byte => Z.lor byte (Z.shiftl 1 (Z.of_nat (7 - x mod 8))))
                         (y * bytesPerRow + x / 8)%nat bm)) as (b' & Hl & Ht).
        { rewrite list_lookup_alter_eq, Hb. reflexivity. }
        exists b'. split; [exact Hl|]. rewrite Ht, testbit_set_bit.
        rewrite (bool_decide_eq_true_2
                   (y * bytesPerRow + x / 8 = y * bytesPerRow + x / 8)%nat)
          by done.
        cbn [andb]. by rewrite orb_assoc.
      * edestruct (IH (alter (fun byte => Z.lor byte (Z.shiftl 1 (Z.of_nat (7 - x mod 8))))
                         (y * bytesPerRow + x / 8)%nat bm)) as (b' & Hl & Ht).
        { rewrite list_lookup_alter_ne by done. exact Hb. }
        exists b'. split; [exact Hl|]. rewrite Ht.
        by rewrite (bool_decide_eq_false_2 _ Hne).
    + destruct (IH bm byte Hb) as (b' & Hl & Ht). exists b'. by split.
Qed.

(** Among the pixels of the canvas, the bit [7 - x mod 8] of the byte
    [x / 8] of row [y] belongs to the pixel [(y, x)] alone. *)
Lemma pixel_of_bit displayHeight y x :
  (y < displayHeight)%nat -> (x < 8 * bytesPerRow)%nat ->
  existsb (fun p => ink displayWidth data p.1 p.2
                    && bool_decide (y * bytesPerRow + x / 8
                                    = p.1 * bytesPerRow + p.2 / 8)%nat
                    && bool_decide (7 - x mod 8 = 7 - p.2 mod 8)%nat)
          (pixels displayWidth displayHeight)
  = bool_decide (x < displayWidth)%nat && ink displayWidth data y x.
Proof.
  intros Hy Hx.
  assert (Hw : (displayWidth <= 8 * bytesPerRow)%nat).
  { unfold bytesPerRow.
    pose proof (Nat.div_mod_eq (displayWidth + 7) 8).
    pose proof (Nat.mod_upper_bound (displayWidth + 7) 8). lia. }
  apply eq_true_iff_eq. rewrite existsb_exists, andb_true_iff, bool_decide_eq_true.
  unfold pixels. split.
  - intros ([y' x'] & Hin & Hp). cbn [fst snd] in Hp.
    apply in_flat_map in Hin as (y'' & Hy' & Hin).
    apply in_map_iff in Hin as (x'' & [= -> ->] & Hx').
    apply in_seq in Hy', Hx'.
    apply andb_true_iff in Hp as [Hp Hj].
    apply andb_true_iff in Hp as [Hink Hi].
    apply bool_decide_eq_true in Hi, Hj.
    pose proof (Nat.div_mod_eq x 8). pose proof (Nat.div_mod_eq x' 8).
    pose proof (Nat.mod_upper_bound x 8). pose proof (Nat.mod_upper_bound x' 8).
    assert (x / 8 < bytesPerRow)%nat by (apply Nat.Div0.div_lt_upper_bound; lia).
    assert (x' / 8 < bytesPerRow)%nat by (apply Nat.Div0.div_lt_upper_bound; lia).
    assert (y = y') by nia. subst y'.
    assert (x = x') by lia. subst x'. split; [lia|done].
  - intros [Hxw Hink]. exists (y, x). cbn [fst snd]. split.
    + apply in_flat_map. exists y. split; [apply in_seq; lia|].
      apply in_map_iff. exists x. split; [done|apply in_seq; lia].
    + rewrite Hink. by rewrite !bool_decide_eq_true_2.
Qed.

End Raster.

(** The binary64 values of the literals [0.299], [0.587] and [0.114]. *)
Lemma luminance_literals :
  ofDecimal false 299 (-3) = S754_finite false 5386305154335113 (-54)
  /\ ofDecimal false 587 (-3) = S754_finite false 5287225962532962 (-53)
  /\ ofDecimal false 114 (-3) = S754_finite false 8214565720323785 (-56).
Proof. vm_compute. repeat split; reflexivity. Qed.

(** C7 as stated fails: for the grey pixel R = G = B = 128 the luminance
    0.299 R + 0.587 G + 0.114 B is exactly 128, which is not strictly less
    than 128, yet the conversion sets the bit of that pixel: the sum that
    the code computes in binary64 arithmetic is 127.99999999999999. *)
Lemma raster_bits_counterexample :
  let data := [128; 128; 128; 255] in
  299 * 128 + 587 * 128 + 114 * 128 = 128 * 1000
  /\ luminance data 0 = S754_finite false 9007199254740991 (-46)
  /\ rasterize 1 1 data = [128]
  /\ Z.testbit 128 7 = true.
Proof. vm_compute. repeat split; reflexivity. Qed.

(** C7, as amended. The bitmap of a [W] by [H] canvas has [ceil(W / 8)]
    bytes for each of its [H] rows, row after row. In row [y], bit
    [7 - x mod 8] of byte [x / 8] is the bit of the pixel in column [x]: it
    is set exactly when the luminance of the pixel as the code computes it
    is below 128, that is, when [(0.299 R + 0.587 G) + 0.114 B < 128] with
    the three constants, the three products and the two sums rounded to
    binary64. For a grey pixel [R = G = B = v] this means [v <= 128]: the
    value 128 is printed too. The bits past column [W - 1] are zero, and a
    black 16 by 16 canvas gives 32 bytes with every bit set. *)
Theorem raster_bits (W H : nat) (data : list Z) :
  let bytesPerRow := ((W + 7) / 8)%nat in
  let bitmap := rasterize W H data in
  let lum (r g b : Z) :=
    SFadd 53 1024
      (SFadd 53 1024
         (SFmul 53 1024 (S754_finite false 5386305154335113 (-54)) (ofZ r))
         (SFmul 53 1024 (S754_finite false 5287225962532962 (-53)) (ofZ g)))
      (SFmul 53 1024 (S754_finite false 8214565720323785 (-56)) (ofZ b)) in
  length bitmap = (bytesPerRow * H)%nat
  /\ (forall y x r g b, (y < H)%nat -> (x < W)%nat ->
      data !! ((y * W + x) * 4)%nat = Some r ->
      data !! ((y * W + x) * 4 + 1)%nat = Some g ->
      data !! ((y * W + x) * 4 + 2)%nat = Some b ->
      exists byte,
        bitmap !! (y * bytesPerRow + x / 8)%nat = Some byte
        /\ Z.testbit byte (Z.of_nat (7 - x mod 8)) =
           SFltb (lum r g b) (S754_finite false 4503599627370496 (-45)))
  /\ (forall y x, (y < H)%nat -> (W <= x < 8 * bytesPerRow)%nat ->
      exists byte,
        bitmap !! (y * bytesPerRow + x / 8)%nat = Some byte
        /\ Z.testbit byte (Z.of_nat (7 - x mod 8)) = false)
  /\ (forall v, 0 <= v <= 255 ->
      SFltb (lum v v v) (S754_finite false 4503599627370496 (-45))
      = (v <=? 128))
  /\ rasterize 16 16 Examples.black16 = replicate (2 * 16) 255.
Proof.
  intros bytesPerRow bitmap lum.
  assert (Hbit : forall y x, (y < H)%nat -> (x < 8 * bytesPerRow)%nat ->
            exists byte,
              bitmap !! (y * bytesPerRow + x / 8)%nat = Some byte
              /\ Z.testbit byte (Z.of_nat (7 - x mod 8)) =
                 bool_decide (x < W)%nat && ink W data y x).
  { intros y x Hy Hx. unfold bitmap. rewrite rasterize_plotAll.
    fold bytesPerRow.
    assert (Hi : (y * bytesPerRow + x / 8 < bytesPerRow * H)%nat).
    { assert (x / 8 < bytesPerRow)%nat
        by (apply Nat.Div0.div_lt_upper_bound; lia). nia. }
    destruct (plotAll_testbit W data (pixels W H)
                (replicate (bytesPerRow * H) 0)
                (y * bytesPerRow + x / 8) 0 (7 - x mod 8))
      as (byte & Hl & Ht).
    { by apply lookup_replicate_2. }
    exists byte. split; [exact Hl|]. rewrite Ht, Z.testbit_0_l. cbn [orb].
    by apply pixel_of_bit. }
  assert (Hw : (W <= 8 * bytesPerRow)%nat).
  { unfold bytesPerRow.
    pose proof (Nat.div_mod_eq (W + 7) 8).
    pose proof (Nat.mod_upper_bound (W + 7) 8). lia. }
  split; [|split; [|split; [|split]]].
  - unfold bitmap. rewrite rasterize_plotAll, plotAll_length.
    apply length_replicate.
  - intros y x r g b Hy Hx Hr Hg Hb.
    destruct (Hbit y x Hy ltac:(lia)) as (byte & Hl & Ht).
    exists byte. split; [exact Hl|]. rewrite Ht.
    rewrite bool_decide_eq_true_2 by done. cbn [andb].
    unfold ink, luminance, component. rewrite Hr, Hg, Hb.
    destruct luminance_literals as (-> & -> & ->). reflexivity.
  - intros y x Hy [Hx1 Hx2].
    destruct (Hbit y x Hy Hx2) as (byte & Hl & Ht).
    exists byte. split; [exact Hl|]. rewrite Ht.
    rewrite bool_decide_eq_false_2 by lia. done.
  - intros v Hv.
    assert (Hall : forallb (fun v => Bool.eqb
                      (SFltb (lum v v v) (S754_finite false 4503599627370496 (-45)))
                      (v <=? 128)) (seqZ 0 256) = true)
      by (vm_compute; reflexivity).
    rewrite forallb_forall in Hall.
    apply Bool.eqb_prop, Hall, list_elem_of_In, elem_of_seqZ. lia.
  - vm_compute. reflexivity.
Qed.

Lemma raster_bits_witness :
  let data := [128; 128; 128; 255; 129; 129; 129; 255] in
  exists byte,
    rasterize 2 1 data !! 0%nat = Some byte
    /\ Z.testbit byte 7 = true.
Proof.
  intros data.
  destruct (proj1 (proj2 (raster_bits 2 1 data)) 0%nat 0%nat 128 128 128)
    as (byte & Hl & Ht); [lia|lia|reflexivity|reflexivity|reflexivity|].
  exists byte. split; [exact Hl|].
  transitivity (Z.testbit byte (Z.of_nat (7 - 0 mod 8))); [reflexivity|].
  rewrite Ht. vm_compute. reflexivity.
Defined.

(** ** The wrapping of the company name *)

Lemma split_cons c s : exists w ws, split c s = w :: ws.
Proof.
  induction s as [|x s (w & ws & IH)]; cbn; [eauto|].
  destruct (x =? c); [eauto|]. rewrite IH. eauto.
Qed.

Lemma split_app_sep c a b : split c (a ++ c :: b) = split c a ++ split c b.
Proof.
  induction a as [|x a IH]; cbn.
  - by rewrite Z.eqb_refl.
  - destruct (x =? c); [by rewrite IH|].
    rewrite IH. by destruct (split_cons c a) as (w & ws & ->).
Qed.

Lemma split_run c a b :
  Forall (fun x => x <> c) a ->
  split c (a ++ b) = (a ++ hd [] (split c b)) :: tl (split c b).
Proof.
  induction 1 as [|x a Hx _ IH]; cbn.
  - by destruct (split_cons c b) as (w & ws & ->).
  - apply Z.eqb_neq in Hx. by rewrite Hx, IH.
Qed.

Lemma words_app_sep a b : words (a ++ space :: b) = words a ++ words b.
Proof. unfold words. by rewrite split_app_sep, List.filter_app. Qed.

Lemma words_nil : words [] = [].
Proof. reflexivity. Qed.

Lemma words_cons_space s : words (space :: s) = words s.
Proof. unfold words. cbn. reflexivity. Qed.

Lemma words_run a b :
  Forall (fun x => x <> space) a -> a <> [] ->
  words (a ++ b) =
  (a ++ hd [] (split space b))
  :: List.filter (fun w => negb (bool_decide (w = []))) (tl (split space b)).
Proof.
  intros Ha Hne. unfold words. rewrite split_run by done. cbn [List.filter].
  rewrite bool_decide_eq_false_2; [done|]. by destruct a.
Qed.

Lemma lastIndexOf_None c s :
  lastIndexOf c s = None -> Forall (fun x => x <> c) s.
Proof.
  induction s as [|x s IH]; cbn; [constructor|].
  destruct (lastIndexOf c s); [done|].
  destruct (x =? c) eqn:E; [done|]. intros _.
  constructor; [by apply Z.eqb_neq|auto].
Qed.

Lemma lastIndexOf_Some c s i :
  lastIndexOf c s = Some i ->
  s = take i s ++ c :: drop (S i) s /\ Forall (fun x => x <> c) (drop (S i) s).
Proof.
  revert i. induction s as [|x s IH]; cbn; [done|]. intros i.
  destruct (lastIndexOf c s) as [k|] eqn:E.
  - intros [= <-]. destruct (IH k eq_refl) as [H1 H2]. cbn. split; [|done].
    by rewrite <- H1.
  - destruct (x =? c) eqn:Ex; [|done]. intros [= <-]. cbn.
    apply Z.eqb_eq in Ex as ->. split; [by rewrite drop_0|].
    rewrite drop_0. by apply lastIndexOf_None.
Qed.

Lemma trimStart_length s : (length (trimStart s) <= length s)%nat.
Proof.
  induction s as [|c s IH]; cbn; [done|]. destruct (isWhiteSpace c); cbn; lia.
Qed.

Lemma trim_length s : (length (trim s) <= length s)%nat.
Proof.
  unfold trim, trimEnd. rewrite length_rev.
  etrans; [apply trimStart_length|]. rewrite length_rev. apply trimStart_length.
Qed.

Lemma companyNameStep_length s :
  (length (companyNameStep s).1 <= 14)%nat.
Proof.
  unfold companyNameStep, substring, DOUBLE_SIZE_CHARS_PER_LINE.
  destruct (lastIndexOf _ _) as [i|]; [destruct (_ && _)|]; cbn [fst];
    rewrite ?drop_0, ?length_take; lia.
Qed.

Lemma companyNameChunks_length name :
  Forall (fun l => (length (trim l) <= 14)%nat) (companyNameChunks name).
Proof.
  funelim (companyNameChunks name); simp companyNameChunks; [constructor|].
  constructor; [|done].
  etrans; [apply trim_length|apply companyNameStep_length].
Qed.

(** C5. The loop cuts a word that fits the budget. Both words of this name
    have exactly 14 characters, so neither exceeds the budget of 14, yet
    the second one is printed on two lines, as "ABCDEFGHIJKLM" and "N": the
    hard break after the first word leaves the space in front of the second
    word, and that space takes one of the 14 places of the next line before
    it is trimmed away. The same word is printed whole when it stands alone
    or when the line before it was broken at a space, as "INFRASTRUCTURE"
    is here. *)
Lemma company_name_cuts_fitting_word :
  let name := js "ABCDEFGHIJKLMN ABCDEFGHIJKLMN" in
  words name = [js "ABCDEFGHIJKLMN"; js "ABCDEFGHIJKLMN"]
  /\ forallb (fun w => (length w <=? 14)%nat) (words name) = true
  /\ companyNameLoop name [] =
     printLine (js "ABCDEFGHIJKLMN") [] ++ printLine (js "ABCDEFGHIJKLM") []
     ++ printLine (js "N") []
  /\ companyNameLoop (js "ABCDEFGHIJKLMN") [] =
     printLine (js "ABCDEFGHIJKLMN") []
  /\ companyNameLoop (js "POWER AND LIGHT INFRASTRUCTURE") [] =
     printLine (js "POWER AND") [] ++ printLine (js "LIGHT") []
     ++ printLine (js "INFRASTRUCTURE") [].
Proof. vm_compute. repeat split; reflexivity. Qed.

(** ** Monetary strings *)

Lemma uint_chars_digits u : forallb isDigit (uint_chars u) = true.
Proof. induction u; cbn; auto. Qed.

Lemma decimal_digits n : forallb isDigit (decimal n) = true.
Proof. apply uint_chars_digits. Qed.

Lemma decimal_nonempty n : decimal n <> [].
Proof.
  unfold decimal. destruct (Z.to_N n) as [|p]; [done|]. cbn.
  pose proof (Unsigned.to_uint_nonnil p) as Hp.
  destruct (Pos.to_uint p); [done|..]; done.
Qed.

Lemma forallb_rev_eq (f : Z -> bool) l : forallb f (rev l) = forallb f l.
Proof.
  induction l as [|x l IH]; [done|]. cbn [rev forallb].
  rewrite forallb_app, IH. cbn. rewrite andb_true_r. apply andb_comm.
Qed.

Lemma isFixed2_intro ip d1 d2 :
  ip <> [] -> forallb isDigit ip = true ->
  isDigit d1 = true -> isDigit d2 = true ->
  isFixed2 (ip ++ 46 :: [d1; d2]) = true.
Proof.
  intros Hne Hip H1 H2. unfold isFixed2.
  rewrite rev_app_distr. cbn [rev app].
  destruct (rev ip) as [|i r] eqn:E.
  { apply (f_equal (@rev Z)) in E. rewrite rev_involutive in E. done. }
  rewrite H1, H2. cbn [andb Z.eqb Pos.eqb].
  rewrite <- E. rewrite forallb_rev_eq. exact Hip.
Qed.

Lemma fixedDigits_fixed2 n : isFixed2 (fixedDigits 2 n) = true.
Proof.
  unfold fixedDigits.
  set (m := replicate (3 - length (decimal n)) 48 ++ decimal n).
  assert (Hd : forallb isDigit m = true).
  { unfold m. rewrite forallb_app, decimal_digits, andb_true_r.
    generalize (3 - length (decimal n))%nat. intros k.
    induction k; cbn; auto. }
  assert (Hl : (3 <= length m)%nat).
  { unfold m. rewrite length_app, length_replicate.
    pose proof (decimal_nonempty n). destruct (decimal n); [done|cbn; lia]. }
  rewrite decide_False by done. cbn [js list_ascii_of_string map app].
  rewrite <- (take_drop (length m - 2) m) in Hd.
  rewrite forallb_app in Hd. apply andb_true_iff in Hd as [Ha Hb].
  assert (Hlb : length (drop (length m - 2) m) = 2%nat)
    by (rewrite length_drop; lia).
  destruct (drop (length m - 2) m) as [|d1 [|d2 [|? ?]]]; try done.
  cbn in Hb. apply andb_true_iff in Hb as [H1 H2].
  apply andb_true_iff in H2 as [H2 _].
  change (Z.of_N (N_of_ascii ".")) with 46.
  apply isFixed2_intro; [|done..].
  intros E. apply (f_equal length) in E. rewrite length_take in E.
  cbn in E. lia.
Qed.


Lemma isFixed2_signed s : isFixed2 s = true -> isSignedFixed2 s = true.
Proof. intros Hs. unfold isSignedFixed2. by rewrite Hs. Qed.

(** In the decimal range [toFixed(2)] writes an optional minus sign, at
    least one integer digit, a point and two fraction digits. *)
Lemma toFixed_decimalRange x :
  decimalRange x = true ->
  isSignedFixed2 (toFixed 2 x) = true
  /\ (unsigned x = true -> isFixed2 (toFixed 2 x) = true).
Proof.
  destruct x as [s|s| |s m e]; cbn [decimalRange]; try done.
  cbn [toFixed unsigned]. destruct (magnitude m e) as [num den].
  intros Hr. apply negb_true_iff in Hr. rewrite Hr.
  pose proof (fixedDigits_fixed2 ((2 * num * 10 ^ Z.of_nat 2 + den) / (2 * den))) as Hf.
  set (F := fixedDigits 2 _) in *.
  destruct s; cbn [negb].
  - split; [|done]. unfold isSignedFixed2.
    change (js "-" ++ F) with (45 :: F). cbn beta iota. rewrite Hf.
    apply orb_true_r.
  - cbn [app]. split; [by apply isFixed2_signed|done].
Qed.

Lemma binary_round_aux_unsigned mx ex lx :
  unsigned (binary_round_aux prec emax false mx ex lx) = true.
Proof.
  unfold binary_round_aux.
  destruct (shr_fexp prec emax mx ex lx) as [mrs' e'].
  destruct (shr_fexp prec emax _ e' loc_Exact) as [mrs'' e''].
  destruct (shr_m mrs'') as [|p|p]; [done| |done].
  by destruct (e'' <=? emax - prec).
Qed.

Lemma binary_normalize_unsigned z e :
  0 <= z -> unsigned (binary_normalize prec emax z e false) = true.
Proof.
  intros Hz. destruct z as [|p|p]; [done| |lia].
  unfold binary_normalize, binary_round.
  destruct (shl_align _ _ _) as [mz ez]. apply binary_round_aux_unsigned.
Qed.

Lemma add_unsigned x y :
  unsigned x = true -> unsigned y = true -> unsigned (add x y) = true.
Proof.
  destruct x as [sx|sx| |sx mx ex], y as [sy|sy| |sy my ey];
    cbn [unsigned]; intros Hx Hy; try done;
    try apply negb_true_iff in Hx as ->; try apply negb_true_iff in Hy as ->;
    try done.
  - by destruct sx, sy.
  - unfold add, SFadd. apply binary_normalize_unsigned.
    cbn [cond_Zopp]. lia.
Qed.

Lemma abs_unsigned x : unsigned (abs x) = true.
Proof. by destruct x. Qed.

Lemma ofDecimal_unsigned m e : unsigned (ofDecimal false m e) = true.
Proof.
  unfold ofDecimal. destruct m as [|p|p]; [done| |done].
  destruct (0 <=? e) eqn:He.
  - apply binary_normalize_unsigned. cbn [cond_Zopp].
    apply Z.leb_le in He. apply Z.mul_nonneg_nonneg; [lia|].
    apply Z.pow_nonneg. lia.
  - destruct (SFdiv_core_binary _ _ _ _ _ _) as [[q e'] l].
    apply binary_round_aux_unsigned.
Qed.

Lemma parseFloat_unsigned s : headOk s = true -> unsigned (parseFloat s) = true.
Proof.
  intros Hs. unfold parseFloat.
  destruct s as [|c r]; [done|]. cbn [headOk] in Hs.
  assert (Hw : isWhiteSpace c = false /\ (c =? 45) = false /\ (c =? 43) = false).
  { unfold isDigit, isWhiteSpace in *. repeat split; lia. }
  destruct Hw as (Hw & H45 & H43).
  cbn [trimStart]. rewrite Hw, H45, H43.
  destruct (startsWith _ _); [done|].
  destruct (span isDigit (c :: r)) as [ip t2].
  destruct (match t2 with [] => _ | _ => _ end) as [fp t3].
  destruct (ip ++ fp); [done|]. apply ofDecimal_unsigned.
Qed.

Lemma shortestDigits_digits fuel k x v :
  forallb isDigit (shortestDigits fuel k x v).1 = true.
Proof.
  assert (Ht : forall k c, forallb isDigit (take k (decimal c)) = true).
  { intros k' c. pose proof (decimal_digits c) as Hd.
    rewrite <- (take_drop k' (decimal c)), forallb_app in Hd.
    by apply andb_true_iff in Hd as [? _]. }
  revert k. induction fuel as [|fuel IH]; intros k; cbn [shortestDigits].
  - apply decimal_digits.
  - cbv zeta. repeat case_match; cbn [fst]; auto.
Qed.

Lemma headOk_digits s : forallb isDigit s = true -> headOk s = true.
Proof.
  destruct s as [|c r]; [done|]. cbn [forallb headOk].
  intros [-> _]%andb_true_iff. done.
Qed.

Lemma fixedDigits_headOk n : headOk (fixedDigits 2 n) = true.
Proof.
  pose proof (fixedDigits_fixed2 n) as Hf. unfold isFixed2 in Hf.
  destruct (rev (fixedDigits 2 n)) as [|d2 [|d1 [|dot [|i ip]]]] eqn:E; try done.
  apply andb_true_iff in Hf as [_ Hf].
  apply (f_equal (@rev Z)) in E. rewrite rev_involutive in E. rewrite E.
  cbn [rev]. rewrite <- !app_assoc.
  rewrite <- forallb_rev_eq in Hf. cbn [rev] in Hf.
  destruct (rev ip) as [|c r]; cbn [app headOk]; cbn [app forallb] in Hf;
    by apply andb_true_iff in Hf as [-> _].
Qed.

Lemma toFixed_headOk x : unsigned x = true -> headOk (toFixed 2 x) = true.
Proof.
  destruct x as [s|s| |s m e]; cbn [unsigned toFixed]; intros Hx.
  - apply fixedDigits_headOk.
  - by apply negb_true_iff in Hx as ->.
  - done.
  - apply negb_true_iff in Hx as ->. destruct (magnitude m e) as [num den].
    cbn [app]. destruct (_ <=? _); [|apply fixedDigits_headOk].
    unfold toStringLarge.
    pose proof (shortestDigits_digits (length (decimal (num / den))) 1
                  (S754_finite false m e) (num / den)) as Hd.
    destruct (shortestDigits _ _ _ _) as [ds n]. cbn [fst] in Hd.
    destruct ds as [|d [|d' rest]]; [done|..];
      cbn [forallb] in Hd; apply andb_true_iff in Hd as [Hd _];
      cbn [headOk]; by rewrite Hd.
Qed.

Lemma sumAmounts_unsigned (its : list Item) :
  Forall (fun i => exists x, item_amount i = toFixed 2 (abs x)) its ->
  unsigned (sumAmounts its) = true.
Proof.
  unfold sumAmounts. assert (Hz : unsigned zero = true) by done.
  revert Hz. generalize zero. intros z Hz Hits. revert z Hz.
  induction Hits as [|i its [x Hi] _ IH]; intros z Hz; [done|].
  cbn [foldl]. apply IH. apply add_unsigned; [done|].
  apply parseFloat_unsigned. rewrite Hi. apply toFixed_headOk, abs_unsigned.
Qed.

Lemma selectItems_parsed `{Host} voucher :
  Forall (fun i => exists el, i = parseItem el) (selectItems voucher).
Proof.
  assert (HP : forall l, Forall (fun i => exists el, i = parseItem el)
                 (parseItemsFromList l)).
  { intros l. unfold parseItemsFromList. destruct l; [done|].
    apply list.Forall_forall. intros i [el [-> _]]%list_elem_of_fmap.
    by exists el. }
  unfold selectItems. cbn zeta.
  repeat case_match; rewrite ?Forall_app; auto.
Qed.

Lemma headOk_no_minus s : headOk s = true -> startsWithMinus s = false.
Proof.
  destruct s as [|c r]; [done|]. cbn [headOk startsWithMinus]. unfold isDigit.
  intros Hh. apply Z.eqb_neq. intros ->. done.
Qed.

(** [toFixed] writes a minus sign first exactly for the negative numbers. *)
Lemma toFixed_sign x : startsWithMinus (toFixed 2 x) = negb (unsigned x).
Proof.
  destruct (unsigned x) eqn:Hu.
  - by apply headOk_no_minus, toFixed_headOk.
  - destruct x as [s|s| |s m e]; cbn [unsigned] in Hu; try done;
      apply negb_false_iff in Hu as ->; cbn [toFixed]; [done|].
    destruct (magnitude m e) as [num den]. done.
Qed.

Lemma toFixed_money x : MoneyOf x (toFixed 2 x).
Proof.
  split; [done|]. split; [apply toFixed_sign|].
  intros Hr. rewrite toFixed_sign.
  destruct (unsigned x) eqn:Hu; cbn [negb].
  - by apply toFixed_decimalRange.
  - destruct x as [s|s| |s m e]; cbn [unsigned decimalRange] in Hu, Hr;
      try done.
    apply negb_false_iff in Hu as ->. cbn [toFixed].
    destruct (magnitude m e) as [num den].
    apply negb_true_iff in Hr. rewrite Hr.
    change (js "-" ++ ?F) with (45 :: F). cbn [drop].
    apply fixedDigits_fixed2.
Qed.

Lemma MoneyOf_unsigned x s :
  MoneyOf x s -> unsigned x = true -> startsWithMinus s = false.
Proof. intros (_ & -> & _) ->. done. Qed.

(** Every item comes from one inventory entry of the voucher. *)
Lemma selectItems_entries `{Host} voucher :
  Forall (fun i => exists el, el ∈ inventoryEntries voucher /\ i = parseItem el)
         (selectItems voucher).
Proof.
  assert (HP : forall l, l ⊆ inventoryEntries voucher ->
             Forall (fun i => exists el, el ∈ inventoryEntries voucher
                                         /\ i = parseItem el)
                    (parseItemsFromList l)).
  { intros l Hl. unfold parseItemsFromList. destruct l; [done|].
    apply list.Forall_forall. intros i [el [-> Hel]]%list_elem_of_fmap.
    exists el. split; [by apply Hl|done]. }
  assert (Hall : getAll ALLINVENTORYENTRIES voucher ⊆ inventoryEntries voucher).
  { intros el Hel. unfold inventoryEntries. rewrite !elem_of_app. auto. }
  assert (Hin : getAll INVENTORYENTRIESIN voucher ⊆ inventoryEntries voucher).
  { intros el Hel. unfold inventoryEntries. rewrite !elem_of_app. auto. }
  assert (Hout : getAll INVENTORYENTRIESOUT voucher ⊆ inventoryEntries voucher).
  { intros el Hel. unfold inventoryEntries. rewrite !elem_of_app. auto. }
  unfold selectItems. cbn zeta.
  repeat case_match; rewrite ?Forall_app; auto.
Qed.

Lemma assignSNo_entries `{Host} voucher :
  Forall (fun i => exists el,
            el ∈ inventoryEntries voucher
            /\ item_rate i = toFixed 2 (rateValue el)
            /\ item_amount i = toFixed 2 (amountValue el))
         (assignSNo (selectItems voucher)).
Proof.
  apply list.Forall_forall. intros i Hin. unfold assignSNo in Hin.
  apply elem_of_lookup_imap in Hin as (k & i0 & -> & Hk). cbn.
  apply list_elem_of_lookup_2 in Hk.
  pose proof (selectItems_entries voucher) as Hs.
  rewrite list.Forall_forall in Hs. destruct (Hs _ Hk) as (el & Hel & ->).
  by exists el.
Qed.

(** C3, as amended. Every monetary string of an extracted invoice is the
    [toFixed(2)] text of a number taken from the document: an item's rate
    that of the number parsed from the RATE text before the first "/" of
    one inventory entry of the voucher, its amount that of the absolute
    value of the number parsed from the AMOUNT text of the same entry; the
    subtotal that of the sum of the item amounts; the total that of the
    absolute amount of the party ledger entry, or of that sum when there is
    no such entry; and the three tax totals those of the amounts of their
    ledger entries. Each string begins with a minus sign exactly when its
    number is negative, and whenever the number is finite and below 10^21
    in magnitude, the string, less that sign, is a decimal numeral with
    exactly two fraction digits. The numbers of the amounts, of the
    subtotal and of the total are never negative, so these strings never
    begin with a minus sign; a rate and a tax total do when the document
    gives a negative number. *)
Theorem monetary_strings `{Host} (xml : jsstring) (inv : Invoice) :
  parseTallyXML xml = Some inv ->
  exists voucher,
    querySelector [js "VOUCHER"]
      (parseFromString (replaceAll (js "&#4;") [] xml)) = Some voucher
    /\ Forall (fun i => exists el,
                 el ∈ inventoryEntries voucher
                 /\ MoneyOf (parseFloatOr0 (splitHead 47 (get "RATE" el)))
                            (item_rate i)
                 /\ MoneyOf (abs (parseFloatOr0 (get "AMOUNT" el)))
                            (item_amount i)
                 /\ startsWithMinus (item_amount i) = false)
              (items inv)
    /\ MoneyOf (sumAmounts (items inv)) (subtotal (totals inv))
    /\ startsWithMinus (subtotal (totals inv)) = false
    /\ (let ledgerEntries := getAll [js "LEDGERENTRIES.LIST"] voucher in
        MoneyOf (match find (fun n => str_eqb (get "ISPARTYLEDGER" n) (js "Yes"))
                            ledgerEntries with
                 | Some p => abs (parseFloatOr0 (get "AMOUNT" p))
                 | None => sumAmounts (items inv)
                 end)
                (total (totals inv))
        /\ startsWithMinus (total (totals inv)) = false
        /\ MoneyOf (findAmount ledgerEntries "CGST") (cgst (totals inv))
        /\ MoneyOf (if JSNumber.truthy (findAmount ledgerEntries "SGST")
                    then findAmount ledgerEntries "SGST"
                    else findAmount ledgerEntries "SGST/UTGST")
                   (sgst (totals inv))
        /\ MoneyOf (findAmount ledgerEntries "IGST") (igst (totals inv))).
Proof.
  intros Hp.
  destruct (parseTallyXML_Some _ _ Hp)
    as (_ & v & Hv & Hi & Hsub & _ & Hig & Hcg & Hsg & Htot).
  pose proof (assignSNo_entries v) as Hits. rewrite <- Hi in Hits.
  assert (Hsum : unsigned (sumAmounts (items inv)) = true).
  { apply sumAmounts_unsigned. eapply list.Forall_impl; [exact Hits|].
    intros i (el & _ & _ & Ha). unfold amountValue in Ha. eauto. }
  exists v. split; [exact Hv|]. split; [|split; [|split]].
  - eapply list.Forall_impl; [exact Hits|]. intros i (el & Hel & -> & ->).
    exists el. split; [exact Hel|]. split; [apply toFixed_money|].
    split; [apply toFixed_money|].
    rewrite toFixed_sign. unfold amountValue. by rewrite abs_unsigned.
  - rewrite Hsub. apply toFixed_money.
  - rewrite Hsub, toFixed_sign. by rewrite Hsum.
  - cbn zeta. rewrite Htot, Hcg, Hsg, Hig.
    split; [|split; [|split; [|split]]]; try apply toFixed_money.
    + destruct (find _ _); apply toFixed_money.
    + destruct (find _ _); rewrite toFixed_sign.
      * by rewrite abs_unsigned.
      * by rewrite Hsum.
Qed.

Lemma monetary_strings_witness :
  let H := Examples.hostOf Examples.oddRates in
  match parseTallyXML [] with
  | Some inv =>
      Forall (fun i => startsWithMinus (item_amount i) = false) (items inv)
      /\ startsWithMinus (subtotal (totals inv)) = false
      /\ startsWithMinus (total (totals inv)) = false
  | None => False
  end.
Proof.
  intros H.
  destruct (parseTallyXML []) as [inv|] eqn:Hp; [|by vm_compute in Hp].
  destruct (monetary_strings [] inv Hp)
    as (v & _ & Hits & _ & Hsub & _ & Htot & _).
  split; [|split].
  - eapply list.Forall_impl; [exact Hits|]. by intros i (el & _ & _ & _ & Ha).
  - exact Hsub.
  - exact Htot.
Defined.

(** C3 as stated fails: a negative RATE gives the rate "-5.00", a RATE and
    an AMOUNT that are not numbers give "NaN", and a negative CGST ledger
    amount gives "-9.00"; none of them is a non-negative decimal. *)
Lemma monetary_strings_counterexample :
  let H := Examples.hostOf Examples.oddRates in
  option_map (fun inv => map item_rate (items inv)) (parseTallyXML [])
    = Some [js "-5.00"; js "NaN"]
  /\ option_map (fun inv => map item_amount (items inv)) (parseTallyXML [])
    = Some [js "5.00"; js "NaN"]
  /\ option_map (fun inv => cgst (totals inv)) (parseTallyXML [])
    = Some (js "-9.00")
  /\ isFixed2 (js "-5.00") = false
  /\ isFixed2 (js "NaN") = false
  /\ isFixed2 (js "-9.00") = false.
Proof. vm_compute. repeat split; reflexivity. Qed.

(** * Further properties of the extractor *)

Lemma item_sNo_imap (l : list Item) j :
  map item_sNo
    (imap (fun index item =>
             {| item_name := item_name item; item_qty := item_qty item;
                item_rate := item_rate item; item_amount := item_amount item;
                item_sNo := Some (Z.of_nat (j + index) + 1) |}) l)
  = map (fun k => Some (Z.of_nat k + 1)) (seq j (length l)).
Proof.
  revert j. induction l as [|i l IH]; intros j; [done|].
  cbn [imap map length seq]. rewrite Nat.add_0_r. f_equal.
  rewrite <- (IH (S j)). f_equal. apply imap_ext. intros k x _. cbn.
  do 3 f_equal. lia.
Qed.

(** X1. The sequence numbers of the extracted items are 1, 2, ..., N, in
    list order. *)
Theorem sequence_numbers_dense `{Host} (xml : jsstring) (inv : Invoice) :
  parseTallyXML xml = Some inv ->
  map item_sNo (items inv) =
  map (fun k => Some (Z.of_nat k + 1)) (seq 0 (length (items inv))).
Proof.
  intros Hp. destruct (parseTallyXML_Some _ _ Hp) as (_ & v & _ & Hi & _).
  rewrite Hi. unfold assignSNo. rewrite length_imap.
  apply (item_sNo_imap (selectItems v) 0).
Qed.

Lemma sequence_numbers_dense_witness :
  let H := Examples.hostOf Examples.smallAmounts in
  option_map (fun inv => map item_sNo (items inv)) (parseTallyXML [])
  = Some [Some 1; Some 2].
Proof.
  intros H.
  destruct (parseTallyXML []) as [inv|] eqn:Hp; [|by vm_compute in Hp].
  cbn [option_map]. rewrite (sequence_numbers_dense [] inv Hp).
  assert (Hl : length (items inv) = 2%nat).
  { assert (Hs : option_map (fun inv => length (items inv)) (Some inv) = Some 2%nat);
      [|by injection Hs].
    rewrite <- Hp. vm_compute. reflexivity. }
  rewrite Hl. reflexivity.
Defined.

(** X2. For a voucher whose upper-cased type contains "MATERIAL OUT" or
    "DELIVERY" and that no earlier rule takes (no "STOCK JOURNAL", no
    consumption view, no "SALES"), the items are those of the out-going
    list, and those of the all-inventory-entries list when the out-going
    list yields none. *)
Theorem delivery_items_fallback `{Host} (xml : jsstring) (inv : Invoice)
    (voucher : Node) :
  parseTallyXML xml = Some inv ->
  querySelector [js "VOUCHER"]
    (parseFromString (replaceAll (js "&#4;") [] xml)) = Some voucher ->
  includes (voucherTypeName voucher) (js "MATERIAL OUT")
  || includes (voucherTypeName voucher) (js "DELIVERY") = true ->
  includes (voucherTypeName voucher) (js "STOCK JOURNAL") = false ->
  includes (objView voucher) (js "CONSUMPTION VOUCHER VIEW") = false ->
  includes (voucherTypeName voucher) (js "SALES") = false ->
  let allItems := parseItemsFromList (getAll ALLINVENTORYENTRIES voucher) in
  let outItems := parseItemsFromList (getAll INVENTORYENTRIESOUT voucher) in
  items inv =
  assignSNo (match outItems with [] => allItems | _ => outItems end).
Proof.
  intros Hp Hv Hd Hj Hc Hs allItems outItems.
  destruct (parseTallyXML_Some _ _ Hp) as (_ & v & Hv' & -> & _).
  rewrite Hv in Hv'. injection Hv' as <-.
  unfold selectItems. cbn zeta. rewrite Hj, Hc, Hs, Hd. cbn [orb].
  assert (Hso : includes (voucherTypeName voucher) (js "SALES ORDER") = false).
  { destruct (includes _ (js "SALES ORDER")) eqn:E; [|done].
    exfalso. revert E Hs. generalize (voucherTypeName voucher). clear.
    induction l as [|c l IH]; [done|]. cbn [includes].
    intros [E|E]%orb_true_iff [Hs1 Hs2]%orb_false_iff.
    - revert E Hs1. cbn.
      repeat (destruct l as [|? l]; [by rewrite ?andb_false_r|]).
      rewrite !andb_true_iff, !andb_false_iff. intuition congruence.
    - auto. }
  rewrite Hso. cbn [orb]. fold allItems outItems. by destruct outItems.
Qed.

Lemma delivery_items_fallback_witness :
  let H := Examples.hostOf MoreExamples.deliveryNote in
  option_map (fun inv => map item_name (items inv)) (parseTallyXML []) =
  Some [js "Widget"].
Proof.
  intros H.
  destruct (parseTallyXML []) as [inv|] eqn:Hp; [|by vm_compute in Hp].
  cbn [option_map].
  rewrite (delivery_items_fallback [] inv
             (MoreExamples.voucherOf MoreExamples.deliveryNote) Hp);
    vm_compute; reflexivity.
Defined.

(** X3. For a voucher whose upper-cased type contains "STOCK JOURNAL", or
    whose object view contains "CONSUMPTION VOUCHER VIEW", the items are
    those of the out-going list and nothing else: there is no fall-back to
    another list when it is empty. *)
Theorem stock_journal_items `{Host} (xml : jsstring) (inv : Invoice)
    (voucher : Node) :
  parseTallyXML xml = Some inv ->
  querySelector [js "VOUCHER"]
    (parseFromString (replaceAll (js "&#4;") [] xml)) = Some voucher ->
  includes (voucherTypeName voucher) (js "STOCK JOURNAL")
  || includes (objView voucher) (js "CONSUMPTION VOUCHER VIEW") = true ->
  items inv =
  assignSNo (parseItemsFromList (getAll INVENTORYENTRIESOUT voucher)).
Proof.
  intros Hp Hv Hj.
  destruct (parseTallyXML_Some _ _ Hp) as (_ & v & Hv' & -> & _).
  rewrite Hv in Hv'. injection Hv' as <-.
  unfold selectItems. cbn zeta. by rewrite Hj.
Qed.

Lemma stock_journal_items_witness :
  let H := Examples.hostOf MoreExamples.stockJournal in
  option_map items (parseTallyXML []) = Some [].
Proof.
  intros H.
  destruct (parseTallyXML []) as [inv|] eqn:Hp; [|by vm_compute in Hp].
  cbn [option_map].
  rewrite (stock_journal_items [] inv
             (MoreExamples.voucherOf MoreExamples.stockJournal) Hp);
    vm_compute; reflexivity.
Defined.

(** X4. For a voucher that none of the three rules takes, the items are
    those of the all-inventory-entries list, then those of the in-going
    list, then those of the out-going list, whatever the order of the lists
    in the document. *)
Theorem other_voucher_items `{Host} (xml : jsstring) (inv : Invoice)
    (voucher : Node) :
  parseTallyXML xml = Some inv ->
  querySelector [js "VOUCHER"]
    (parseFromString (replaceAll (js "&#4;") [] xml)) = Some voucher ->
  includes (voucherTypeName voucher) (js "STOCK JOURNAL") = false ->
  includes (objView voucher) (js "CONSUMPTION VOUCHER VIEW") = false ->
  includes (voucherTypeName voucher) (js "SALES") = false ->
  includes (voucherTypeName voucher) (js "MATERIAL OUT") = false ->
  includes (voucherTypeName voucher) (js "DELIVERY") = false ->
  items inv =
  assignSNo (map parseItem (getAll ALLINVENTORYENTRIES voucher
                            ++ getAll INVENTORYENTRIESIN voucher
                            ++ getAll INVENTORYENTRIESOUT voucher)).
Proof.
  intros Hp Hv Hj Hc Hs Hm Hd.
  destruct (parseTallyXML_Some _ _ Hp) as (_ & v & Hv' & -> & _).
  rewrite Hv in Hv'. injection Hv' as <-.
  unfold selectItems. cbn zeta. rewrite Hj, Hc, Hs, Hm, Hd. cbn [orb].
  assert (Hso : includes (voucherTypeName voucher) (js "SALES ORDER") = false).
  { destruct (includes _ (js "SALES ORDER")) eqn:E; [|done].
    exfalso. revert E Hs. generalize (voucherTypeName voucher). clear.
    induction l as [|c l IH]; [done|]. cbn [includes].
    intros [E|E]%orb_true_iff [Hs1 Hs2]%orb_false_iff.
    - revert E Hs1. cbn.
      repeat (destruct l as [|? l]; [by rewrite ?andb_false_r|]).
      rewrite !andb_true_iff, !andb_false_iff. intuition congruence.
    - auto. }
  rewrite Hso. cbn [orb]. f_equal.
  assert (HP : forall l, parseItemsFromList l = map parseItem l)
    by (by intros []).
  by rewrite !HP, !map_app.
Qed.

Lemma other_voucher_items_witness :
  let H := Examples.hostOf MoreExamples.receiptNote in
  option_map (fun inv => map item_name (items inv)) (parseTallyXML []) =
  Some [js "All"; js "In"; js "Out"].
Proof.
  intros H.
  destruct (parseTallyXML []) as [inv|] eqn:Hp; [|by vm_compute in Hp].
  cbn [option_map].
  rewrite (other_voucher_items [] inv
             (MoreExamples.voucherOf MoreExamples.receiptNote) Hp);
    vm_compute; reflexivity.
Defined.

(** X5. The heading of an extracted invoice is always one of the five
    labels, so it is never empty. *)
Theorem heading_always_set `{Host} (xml : jsstring) (inv : Invoice) :
  parseTallyXML xml = Some inv ->
  heading inv ∈ [js "SALES ORDER"; js "MATERIAL CHALLAN"; js "SALES INVOICE";
                 js "STOCK JOURNAL"; js "DOCUMENT"]
  /\ JSString.truthy (heading inv) = true.
Proof.
  intros Hp. destruct (parseTallyXML_Some _ _ Hp) as (_ & v & _ & _ & _ & -> & _).
  unfold selectHeading.
  repeat case_match;
    (split; [repeat first [apply list_elem_of_here | apply list_elem_of_further]
            |reflexivity]).
Qed.

Lemma heading_always_set_witness :
  let H := Examples.hostOf MoreExamples.receiptNote in
  match parseTallyXML [] with
  | Some inv => JSString.truthy (heading inv) = true
  | None => False
  end.
Proof.
  intros H.
  destruct (parseTallyXML []) as [inv|] eqn:Hp; [|by vm_compute in Hp].
  exact (proj2 (heading_always_set [] inv Hp)).
Defined.

(** X6. The heading and the item list are chosen by different orders of
    the same tests: a voucher whose type contains both "SALES" and
    "DELIVERY" (and neither "SALES ORDER" nor "STOCK JOURNAL", and no
    consumption view) is headed MATERIAL CHALLAN, while its items are
    chosen by the sales rule, the all-inventory-entries list first. *)
Theorem sales_delivery_voucher `{Host} (xml : jsstring) (inv : Invoice)
    (voucher : Node) :
  parseTallyXML xml = Some inv ->
  querySelector [js "VOUCHER"]
    (parseFromString (replaceAll (js "&#4;") [] xml)) = Some voucher ->
  includes (voucherTypeName voucher) (js "SALES") = true ->
  includes (voucherTypeName voucher) (js "DELIVERY") = true ->
  includes (voucherTypeName voucher) (js "SALES ORDER") = false ->
  includes (voucherTypeName voucher) (js "STOCK JOURNAL") = false ->
  includes (objView voucher) (js "CONSUMPTION VOUCHER VIEW") = false ->
  let allItems := parseItemsFromList (getAll ALLINVENTORYENTRIES voucher) in
  let outItems := parseItemsFromList (getAll INVENTORYENTRIESOUT voucher) in
  heading inv = js "MATERIAL CHALLAN"
  /\ items inv =
     assignSNo (match allItems with [] => outItems | _ => allItems end).
Proof.
  intros Hp Hv Hs Hd Hso Hj Hc allItems outItems.
  destruct (parseTallyXML_Some _ _ Hp) as (_ & v & Hv' & -> & _ & -> & _).
  rewrite Hv in Hv'. injection Hv' as <-. split.
  - unfold selectHeading. rewrite Hso, Hd. by rewrite orb_true_r.
  - unfold selectItems. cbn zeta. rewrite Hj, Hc, Hso, Hs. cbn [orb].
    fold allItems outItems. by destruct allItems.
Qed.

Lemma sales_delivery_voucher_witness :
  let H := Examples.hostOf MoreExamples.salesDelivery in
  option_map (fun inv => (heading inv, map item_name (items inv)))
             (parseTallyXML [])
  = Some (js "MATERIAL CHALLAN", [js "All"]).
Proof.
  intros H.
  destruct (parseTallyXML []) as [inv|] eqn:Hp; [|by vm_compute in Hp].
  cbn [option_map].
  destruct (sales_delivery_voucher [] inv
              (MoreExamples.voucherOf MoreExamples.salesDelivery) Hp)
    as [-> ->]; vm_compute; reflexivity.
Defined.

(** X7. [formatDate] turns the eight characters YYYYMMDD into DD-MM-YYYY. *)
Theorem formatDate_rearranges (y m d : jsstring) :
  length y = 4%nat -> length m = 2%nat -> length d = 2%nat ->
  formatDate (y ++ m ++ d) = d ++ js "-" ++ m ++ js "-" ++ y.
Proof.
  intros Hy Hm Hd. unfold formatDate, slice.
  assert (Ht : JSString.truthy (y ++ m ++ d) = true) by (by destruct y).
  rewrite Ht.
  assert (H6 : drop 6 (y ++ m ++ d) = d).
  { rewrite app_assoc. apply drop_app_length'. rewrite length_app. lia. }
  assert (H4 : drop 4 (y ++ m ++ d) = m ++ d) by (by apply drop_app_length').
  rewrite H6, H4, drop_0.
  rewrite (take_ge d) by lia.
  rewrite (take_app_length' m d) by lia.
  by rewrite (take_app_length' y (m ++ d)) by lia.
Qed.

Lemma formatDate_rearranges_witness :
  formatDate (js "20250709") = js "09-07-2025".
Proof.
  exact (formatDate_rearranges (js "2025") (js "07") (js "09")
           eq_refl eq_refl eq_refl).
Defined.

Lemma parseQty_number s : isNaN (parseFloat (parseQty s)) = false.
Proof.
  unfold parseQty.
  destruct (isNaN (parseFloat (splitHead space (trim s)))) eqn:E; [|done].
  vm_compute. reflexivity.
Qed.

(** X8. The quantity of every extracted item parses as a number: text that
    does not start with one is replaced by "0". *)
Theorem quantities_are_numbers `{Host} (xml : jsstring) (inv : Invoice) :
  parseTallyXML xml = Some inv ->
  Forall (fun i => isNaN (parseFloat (item_qty i)) = false) (items inv).
Proof.
  intros Hp. destruct (parseTallyXML_Some _ _ Hp) as (_ & v & _ & -> & _).
  apply list.Forall_forall. intros i Hin. unfold assignSNo in Hin.
  apply elem_of_lookup_imap in Hin as (k & i0 & -> & Hk). cbn.
  apply list_elem_of_lookup_2 in Hk.
  pose proof (selectItems_parsed v) as Hs.
  rewrite list.Forall_forall in Hs. destruct (Hs _ Hk) as [el ->].
  apply parseQty_number.
Qed.

Lemma quantities_are_numbers_witness :
  let H := Examples.hostOf Examples.oddRates in
  match parseTallyXML [] with
  | Some inv =>
      Forall (fun i => isNaN (parseFloat (item_qty i)) = false) (items inv)
  | None => False
  end.
Proof.
  intros H.
  destruct (parseTallyXML []) as [inv|] eqn:Hp; [|by vm_compute in Hp].
  exact (quantities_are_numbers [] inv Hp).
Defined.

Lemma split_no_sep c l : Forall (fun x => x <> c) l -> split c l = [l].
Proof.
  intros Hl. rewrite <- (app_nil_r l) at 1. rewrite split_run by done.
  cbn. by rewrite app_nil_r.
Qed.

Lemma split_join c ls :
  ls <> [] -> Forall (fun l => Forall (fun x => x <> c) l) ls ->
  split c (join [c] ls) = ls.
Proof.
  intros Hne Hls. induction Hls as [|l ls Hl Hls IH]; [done|].
  destruct ls as [|l' ls]; cbn [join].
  - by apply split_no_sep.
  - cbn [app]. rewrite split_app_sep, split_no_sep by done.
    cbn [app]. f_equal. by apply IH.
Qed.

Lemma printLines_lines ls c :
  foldl (fun commands line => printLine line commands) c ls =
  c ++ flat_map (fun l => printLine l []) ls.
Proof.
  revert c. induction ls as [|l ls IH]; intros c; cbn [foldl flat_map].
  - by rewrite app_nil_r.
  - rewrite IH. unfold printLine. by rewrite app_nil_l, <- !app_assoc.
Qed.

(** ** From the address elements to the party block *)

(** The party of an extracted invoice, field by field. *)
Lemma parseTallyXML_party `{Host} xml inv :
  parseTallyXML xml = Some inv ->
  exists voucher,
    querySelector [js "VOUCHER"]
      (parseFromString (replaceAll (js "&#4;") [] xml)) = Some voucher
    /\ party_name (party inv) = get "PARTYNAME" voucher
    /\ party_address (party inv) =
       join [10]
         (map (fun a => trim (textContent a))
              (getAll [js "BASICBUYERADDRESS.LIST"; js "BASICBUYERADDRESS"]
                      voucher))
    /\ party_gstin (party inv) = get "PARTYGSTIN" voucher.
Proof.
  unfold parseTallyXML, parseBody. cbn zeta.
  destruct (querySelector [js "parsererror"] _) as [pe|]; [done|].
  destruct (querySelector [js "VOUCHER"] _) as [v|]; [|done].
  cbn [bind tryCatch]. intros [= <-].
  exists v. cbn [party party_name party_address party_gstin].
  repeat split; done.
Qed.

Lemma join_nil c ls : join [c] ls = [] -> ls = [] \/ ls = [[]].
Proof.
  destruct ls as [|l [|l' ls]]; cbn [join]; [by left| |].
  - intros ->. by right.
  - intros Hj. by destruct l.
Qed.

(** X9. The address lines of the party reach the receipt one per line:
    for an extracted invoice whose party has a name, the party block of the
    generator is the bold caption, the name, then the trimmed texts of the
    buyer-address elements of the voucher, in document order and one on
    each line, then the GSTIN line when there is a GSTIN, then an empty
    line. This holds when no address text contains a line feed. The
    exception is an address that consists of one empty line: it is not
    printed; and without a party name the block prints nothing at all. *)
Theorem address_lines_round_trip `{Host} (xml : jsstring) (inv : Invoice)
    (voucher : Node) (commands : list Z) :
  parseTallyXML xml = Some inv ->
  querySelector [js "VOUCHER"]
    (parseFromString (replaceAll (js "&#4;") [] xml)) = Some voucher ->
  let lines :=
    map (fun a => trim (textContent a))
        (getAll [js "BASICBUYERADDRESS.LIST"; js "BASICBUYERADDRESS"] voucher) in
  Forall (fun l => Forall (fun x => x <> 10) l) lines ->
  partyDetails inv commands =
    if JSString.truthy (get "PARTYNAME" voucher) then
      commands
      ++ setBold true [] ++ printLine (js "PARTY DETAILS:") []
      ++ setBold false [] ++ printLine (get "PARTYNAME" voucher) []
      ++ (if bool_decide (lines = [[]]) then []
          else flat_map (fun l => printLine l []) lines)
      ++ (if JSString.truthy (get "PARTYGSTIN" voucher)
          then printLine (js "GSTIN: " ++ get "PARTYGSTIN" voucher) []
          else [])
      ++ printLine [] []
    else commands.
Proof.
  intros Hp Hv lines Hl.
  destruct (parseTallyXML_party _ _ Hp) as (v & Hv' & Hn & Ha & Hg).
  rewrite Hv in Hv'. injection Hv' as <-. fold lines in Ha.
  unfold partyDetails. rewrite Hn, Ha, Hg.
  destruct (JSString.truthy (get "PARTYNAME" voucher)); [|done].
  assert (Haddr : forall c,
            (if JSString.truthy (join [10] lines)
             then printLines (join [10] lines) else id) c =
            c ++ (if bool_decide (lines = [[]]) then []
                  else flat_map (fun l => printLine l []) lines)).
  { intros c. destruct (join [10] lines) as [|x r] eqn:Hj.
    - cbn [JSString.truthy]. unfold id.
      destruct (join_nil _ _ Hj) as [->| ->]; cbn; by rewrite app_nil_r.
    - cbn [JSString.truthy]. rewrite <- Hj.
      assert (Hne : lines <> []) by (by intros E; rewrite E in Hj).
      assert (Hne' : lines <> [[]]) by (by intros E; rewrite E in Hj).
      rewrite bool_decide_eq_false_2 by done.
      unfold printLines. rewrite split_join by done.
      apply printLines_lines. }
  rewrite Haddr.
  destruct (JSString.truthy (get "PARTYGSTIN" voucher));
    unfold printLine, setBold, id;
    rewrite ?app_nil_l, ?app_nil_r, <- ?app_assoc; reflexivity.
Qed.

Lemma address_lines_round_trip_witness :
  let H := Examples.hostOf MoreExamples.buyerWithAddress in
  option_map (fun inv => partyDetails inv []) (parseTallyXML []) =
  Some ([27; 69; 1] ++ js "PARTY DETAILS:" ++ [10] ++ [27; 69; 0]
        ++ js "Buyer" ++ [10]
        ++ js "12 High Street" ++ [10] ++ js "Pune" ++ [10]
        ++ [10]).
Proof.
  intros H.
  destruct (parseTallyXML []) as [inv|] eqn:Hp; [|by vm_compute in Hp].
  cbn [option_map].
  rewrite (address_lines_round_trip [] inv
             (MoreExamples.voucherOf MoreExamples.buyerWithAddress) [] Hp).
  - vm_compute. reflexivity.
  - vm_compute. reflexivity.
  - refine (bool_decide_unpack _ _). vm_compute. exact I.
Defined.

(** * Further properties of the generator *)

Lemma textBlockLoop_lines s :
  exists lines,
    (forall c, textBlockLoop s c = c ++ flat_map (fun l => printLine l []) lines)
    /\ concat lines = s
    /\ Forall (fun l => (0 < length l <= 42)%nat) lines.
Proof.
  remember (length s) as n eqn:Hn. revert s Hn.
  induction n as [n IH] using lt_wf_ind. intros s Hn.
  destruct s as [|x r].
  - exists []. split; [|done]. intros c. simp textBlockLoop.
    by rewrite app_nil_r.
  - assert (Hlt : (length (drop 42 (x :: r)) < n)%nat).
    { subst n. rewrite length_drop. cbn. lia. }
    destruct (IH _ Hlt _ eq_refl) as (lines & Hl & Hc & Hf).
    exists (take 42 (x :: r) :: lines). split; [|split].
    + intros c. simp textBlockLoop. cbn zeta.
      unfold substringFrom, substring, TOTAL_RECEIPT_WIDTH.
      rewrite Hl, drop_0, Nat.sub_0_r. cbn [flat_map]. unfold printLine.
      by rewrite app_nil_l, <- !app_assoc.
    + cbn [concat]. rewrite Hc. apply take_drop.
    + constructor; [|done]. rewrite length_take. cbn [length]. lia.
Qed.

(** X10. The remarks are printed in full: the lines into which the
    narration is cut are not empty, have at most 42 characters each and,
    joined, give back the narration. *)
Theorem narration_lines (s : jsstring) (commands : list Z) :
  exists lines,
    textBlockLoop s commands =
      commands ++ flat_map (fun l => printLine l []) lines
    /\ concat lines = s
    /\ Forall (fun l => (0 < length l <= 42)%nat) lines.
Proof.
  destruct (textBlockLoop_lines s) as (lines & Hl & Hc & Hf).
  exists lines. by rewrite Hl.
Qed.

Lemma itemNameLoop_lines indent s :
  exists pieces,
    (forall c, itemNameLoop indent s c =
               c ++ flat_map (fun p => printLine (indent ++ p) []) pieces)
    /\ concat pieces = s
    /\ Forall (fun p => (0 < length p <= 38)%nat) pieces.
Proof.
  remember (length s) as n eqn:Hn. revert s Hn.
  induction n as [n IH] using lt_wf_ind. intros s Hn.
  destruct s as [|x r].
  - exists []. split; [|done]. intros c. simp itemNameLoop.
    by rewrite app_nil_r.
  - assert (Hlt : (length (drop 38 (x :: r)) < n)%nat).
    { subst n. rewrite length_drop. cbn. lia. }
    destruct (IH _ Hlt _ eq_refl) as (pieces & Hl & Hc & Hf).
    exists (take 38 (x :: r) :: pieces). split; [|split].
    + intros c. simp itemNameLoop. cbn zeta.
      unfold substringFrom, substring, TOTAL_RECEIPT_WIDTH.
      change (42 - 4)%nat with 38%nat.
      rewrite Hl, drop_0, Nat.sub_0_r. cbn [flat_map]. unfold printLine.
      by rewrite app_nil_l, <- !app_assoc.
    + cbn [concat]. rewrite Hc. apply take_drop.
    + constructor; [|done]. rewrite length_take. cbn [length]. lia.
Qed.

(** X11. The name of an item is printed in full: its first 38 characters
    after the sequence number, in bold, and the rest in pieces of at most
    38 characters, each on a line of its own behind four spaces, so that no
    continuation line is wider than 42 columns; then the second row and an
    empty line. *)
Theorem item_name_lines (item : Item) (commands : list Z) :
  exists pieces,
    printItem item commands =
      commands
      ++ setBold true []
      ++ printLine (padEnd 3 (stringOfSNo (item_sNo item)) ++ js " "
                    ++ take 38 (item_name item)) []
      ++ setBold false []
      ++ flat_map (fun p => printLine (js "    " ++ p) []) pieces
      ++ printLine (replicate (42 - length (qtyRateAmountText item)) 32
                    ++ qtyRateAmountText item) []
      ++ printLine [] []
    /\ take 38 (item_name item) ++ concat pieces = item_name item
    /\ Forall (fun p => (0 < length p <= 38)%nat) pieces.
Proof.
  unfold printItem. cbn zeta.
  unfold substring, substringFrom, ITEM_NAME_COL_WIDTH, TOTAL_RECEIPT_WIDTH,
    SNO_COL_WIDTH.
  change (42 - 3 - 1)%nat with 38%nat. change (3 + 1)%nat with 4%nat.
  rewrite drop_0, Nat.sub_0_r, !repeat_space, Nat.max_0_l.
  destruct (bool_decide (38 < length (item_name item))%nat) eqn:E.
  - destruct (itemNameLoop_lines (replicate 4 32) (drop 38 (item_name item)))
      as (pieces & Hl & Hc & Hf).
    exists pieces. split; [|split; [|done]].
    + rewrite Hl. unfold printLine, setBold.
      change (js "    ") with (replicate 4 32).
      rewrite !app_nil_l, <- !app_assoc. reflexivity.
    + rewrite Hc. apply take_drop.
  - apply bool_decide_eq_false in E. exists []. split; [|split; [|done]].
    + unfold printLine, setBold, id. cbn [flat_map].
      rewrite !app_nil_l, <- !app_assoc. reflexivity.
    + cbn [concat]. rewrite app_nil_r. apply take_ge. lia.
Qed.

(** ** The rows of an item *)

(** What the callback of [items.forEach] appends for one item. *)
Lemma printItem_rows item :
  exists pieces,
    printItem item [] =
      setBold true []
      ++ printLine (padEnd 3 (stringOfSNo (item_sNo item)) ++ js " "
                    ++ take 38 (item_name item)) []
      ++ setBold false []
      ++ flat_map (fun p => printLine (js "    " ++ p) []) pieces
      ++ printLine (replicate (Z.to_nat (Z.max 0
                       (42 - Z.of_nat (length (qtyRateAmountText item))))) 32
                    ++ qtyRateAmountText item) []
      ++ printLine [] []
    /\ take 38 (item_name item) ++ concat pieces = item_name item
    /\ Forall (fun p => (0 < length p <= 38)%nat) pieces.
Proof.
  unfold printItem. cbn zeta.
  unfold substring, substringFrom, ITEM_NAME_COL_WIDTH, TOTAL_RECEIPT_WIDTH,
    SNO_COL_WIDTH.
  change (42 - 3 - 1)%nat with 38%nat. change (3 + 1)%nat with 4%nat.
  rewrite drop_0, Nat.sub_0_r, !repeat_space, Nat.max_0_l.
  replace (42 - length (qtyRateAmountText item))%nat
    with (Z.to_nat (Z.max 0 (42 - Z.of_nat (length (qtyRateAmountText item)))))
    by lia.
  destruct (bool_decide (38 < length (item_name item))%nat) eqn:E.
  - destruct (itemNameLoop_lines (replicate 4 32) (drop 38 (item_name item)))
      as (pieces & Hl & Hc & Hf).
    exists pieces. split; [|split; [|done]].
    + rewrite Hl. unfold printLine, setBold.
      change (js "    ") with (replicate 4 32).
      rewrite !app_nil_l, <- !app_assoc. reflexivity.
    + rewrite Hc. apply take_drop.
  - apply bool_decide_eq_false in E. exists []. split; [|split; [|done]].
    + unfold printLine, setBold, id. cbn [flat_map].
      rewrite !app_nil_l, <- !app_assoc. reflexivity.
    + cbn [concat]. rewrite app_nil_r. apply take_ge. lia.
Qed.

(** C8. For every item of the invoice the stream holds the item's block as
    one contiguous run of lines: the first row (sequence number and the
    first 38 characters of the name, in bold), the continuation lines of the
    name, and then, as the next line, the second row followed by an empty
    line. The second row is the text "Qty: {qty} @ Rs. {rate} = Rs.
    {amount}" (the three numbers with two fraction digits) behind
    max(0, 42 - length) spaces and nothing else: it fills the 42 columns
    when the text is not longer than that, and it is the text itself, not
    truncated, when the text is 42 characters long or longer. *)
Theorem item_second_row `{Host} (inv : Invoice) (settings : Settings)
    (out : list Z) (item : Item) :
  generateEscPosCommands (Some inv) settings = Some out ->
  item ∈ items inv ->
  let text :=
    js "Qty: " ++ toFixed 2 (parseFloat (item_qty item))
    ++ js " @ Rs. " ++ toFixed 2 (parseFloat (item_rate item))
    ++ js " = Rs. " ++ toFixed 2 (parseFloat (item_amount item)) in
  let padding := Z.to_nat (Z.max 0 (42 - Z.of_nat (length text))) in
  exists before pieces after,
    out =
      before
      ++ setBold true []
      ++ printLine (padEnd 3 (stringOfSNo (item_sNo item)) ++ js " "
                    ++ take 38 (item_name item)) []
      ++ setBold false []
      ++ flat_map (fun p => printLine (js "    " ++ p) []) pieces
      ++ printLine (replicate padding 32 ++ text) []
      ++ printLine [] []
      ++ after
    /\ take 38 (item_name item) ++ concat pieces = item_name item
    /\ Forall (fun p => (0 < length p <= 38)%nat) pieces
    /\ ((length text <= 42)%nat ->
        length (replicate padding 32 ++ text) = 42%nat)
    /\ ((42 <= length text)%nat -> replicate padding 32 ++ text = text).
Proof.
  intros Hg Hin text padding.
  destruct (generate_some _ _ _ Hg) as [c ->].
  rewrite receiptBody_split. unfold itemsList.
  destruct (items inv) as [|i0 its] eqn:Hits; [by apply elem_of_nil in Hin|].
  destruct (foldl_printItem_elem item (i0 :: its)
              (itemsTableHeader settings (partyDetails inv (orderDetails inv settings
                 (invoiceType inv settings (companyHeader inv settings c))))) Hin)
    as (b & a & ->).
  destruct (printItem_rows item) as (pieces & -> & Hname & Hpieces).
  change (qtyRateAmountText item) with text. fold padding.
  rewrite (appends_printLine [] (b ++ _)).
  eexists b, pieces, _. split; [|split; [done|split; [done|split]]].
  - rewrite <- !app_assoc. reflexivity.
  - intros Hl. rewrite length_app, length_replicate. lia.
  - intros Hl. replace padding with 0%nat by lia. done.
Qed.

Lemma item_second_row_witness :
  let item :=
    {| item_name := js "Widget"; item_qty := js "10"; item_rate := js "25.00";
       item_amount := js "250.00"; item_sNo := Some 1 |} in
  exists before after,
    receiptBody Examples.widgetInvoice Examples.plainSettings [27; 64] =
      before
      ++ [27; 69; 1] ++ js "1   Widget" ++ [10] ++ [27; 69; 0]
      ++ js "       Qty: 10.00 @ Rs. 25.00 = Rs. 250.00" ++ [10]
      ++ [10]
      ++ after.
Proof.
  intros item.
  destruct (item_second_row (H := Examples.hostOf (Text []))
              Examples.widgetInvoice Examples.plainSettings
              (receiptBody Examples.widgetInvoice Examples.plainSettings [27; 64])
              item) as (before & pieces & after & Hout & Hname & Hpieces & _).
  - vm_compute. reflexivity.
  - apply list_elem_of_here.
  - assert (pieces = []) as ->.
    { destruct pieces as [|p ps]; [done|]. exfalso.
      apply Forall_cons_1 in Hpieces as [Hp _].
      apply (f_equal length) in Hname.
      rewrite length_app in Hname. cbn [concat] in Hname.
      rewrite length_app in Hname. cbn in Hname. lia. }
    exists before, after. rewrite Hout. reflexivity.
Defined.

Lemma companyNameStep_cut s :
  s = (companyNameStep s).1 ++ (companyNameStep s).2
  \/ s = (companyNameStep s).1 ++ space :: (companyNameStep s).2.
Proof.
  unfold companyNameStep, substring, substringFrom,
    DOUBLE_SIZE_CHARS_PER_LINE. rewrite drop_0, Nat.sub_0_r.
  assert (Hs : s = take 14 s ++ drop 14 s) by (by rewrite take_drop).
  destruct (lastIndexOf space (take 14 s)) as [i|] eqn:E; [|by left].
  destruct (bool_decide (0 < i)%nat && bool_decide (length (take 14 s) = 14%nat))
    eqn:Eb; [|by left].
  right. cbn [fst snd]. rewrite drop_0, Nat.sub_0_r.
  apply andb_true_iff in Eb as [_ E14]. apply bool_decide_eq_true in E14.
  destruct (lastIndexOf_Some _ _ _ E) as [Hsplit _].
  assert (Hi : (i < 14)%nat).
  { destruct (decide (i < 14)%nat); [done|].
    rewrite (take_ge (take 14 s) i), (drop_ge (take 14 s) (S i)) in Hsplit by lia.
    apply (f_equal length) in Hsplit. rewrite length_app in Hsplit.
    cbn in Hsplit. lia. }
  assert (Hd : drop (S i) (take 14 s) ++ drop 14 s = drop (i + 1) s).
  { rewrite <- drop_app_le by lia. rewrite take_drop. f_equal. lia. }
  rewrite <- Hd. rewrite Hs at 1. rewrite Hsplit at 1.
  by rewrite <- app_assoc.
Qed.

(** X12. Wrapping the company name loses nothing but spaces: whatever the
    name, the characters of the chunks other than spaces are exactly those
    of the name, in the same order. *)
Theorem company_name_keeps_letters (name : jsstring) :
  List.filter (fun c => negb (c =? space)) (concat (companyNameChunks name))
  = List.filter (fun c => negb (c =? space)) name.
Proof.
  funelim (companyNameChunks name); simp companyNameChunks; [done|].
  cbn [concat]. rewrite List.filter_app, H.
  rewrite <- List.filter_app.
  destruct (companyNameStep_cut (c :: r)) as [Hc|Hc]; rewrite Hc at 3.
  - done.
  - rewrite !List.filter_app. f_equal.
Qed.

(** ** Which words the company-name loop cuts *)

Lemma words_run_cases a b :
  Forall (fun x => x <> space) a -> a <> [] ->
  words (a ++ b) = a :: words b
  \/ exists w B, w <> [] /\ words b = w :: B /\ words (a ++ b) = (a ++ w) :: B.
Proof.
  intros Ha Hne. rewrite (words_run a b) by done. unfold words.
  destruct (split_cons space b) as (w & ws & ->). cbn [hd tl List.filter].
  destruct (decide (w = [])) as [->|Hw].
  - left. rewrite app_nil_r. by rewrite bool_decide_eq_true_2.
  - right. exists w, (List.filter (fun w => negb (bool_decide (w = []))) ws).
    by rewrite bool_decide_eq_false_2.
Qed.

Lemma words_no_space a :
  Forall (fun x => x <> space) a -> a <> [] -> words a = [a].
Proof.
  intros Ha Hne. rewrite <- (app_nil_r a) at 1.
  rewrite (words_run a []) by done. cbn. by rewrite app_nil_r.
Qed.

(** One turn of the loop either keeps every word whole, or cuts one word,
    which then has 14 characters or more: its first part is the only word
    of the line and its second part begins what remains. *)
Lemma companyNameStep_pieces s :
  words s = words (companyNameStep s).1 ++ words (companyNameStep s).2
  \/ exists a b B,
       words (companyNameStep s).1 = [a]
       /\ words (companyNameStep s).2 = b :: B
       /\ words s = (a ++ b) :: B
       /\ (14 <= length (a ++ b))%nat.
Proof.
  unfold companyNameStep, substring, substringFrom,
    DOUBLE_SIZE_CHARS_PER_LINE. rewrite drop_0, Nat.sub_0_r.
  assert (Hs : s = take 14 s ++ drop 14 s) by (by rewrite take_drop).
  assert (Hshort : (length (take 14 s) <> 14)%nat ->
                   words s = words (take 14 s) ++ words (drop 14 s)).
  { intros Hl. rewrite length_take in Hl.
    rewrite take_ge, drop_ge by lia. by rewrite words_nil, app_nil_r. }
  assert (Hhard : forall a, Forall (fun x => x <> space) a ->
            (13 <= length a)%nat -> words (take 14 s) = words a ->
            words s = words (a ++ drop 14 s) ->
            words s = words (take 14 s) ++ words (drop 14 s)
            \/ exists a b B,
                 words (take 14 s) = [a]
                 /\ words (drop 14 s) = b :: B
                 /\ words s = (a ++ b) :: B
                 /\ (14 <= length (a ++ b))%nat).
  { intros a Ha Hl Hc Hw. assert (Hne : a <> []) by (intros ->; cbn in Hl; lia).
    rewrite Hc, Hw, (words_no_space a) by done.
    destruct (words_run_cases a (drop 14 s) Ha Hne) as [->|(w & B & Hw' & -> & ->)].
    - by left.
    - right. exists a, w, B. repeat split; [done..|].
      rewrite length_app. destruct w; [done|]. cbn [length]. lia. }
  destruct (lastIndexOf space (take 14 s)) as [i|] eqn:E.
  - destruct (lastIndexOf_Some _ _ _ E) as [Hsplit Hafter].
    assert (Hi : (i < length (take 14 s))%nat).
    { destruct (decide (i < length (take 14 s))%nat); [done|].
      rewrite (take_ge (take 14 s) i), (drop_ge (take 14 s) (S i)) in Hsplit by lia.
      apply (f_equal length) in Hsplit. rewrite length_app in Hsplit.
      cbn in Hsplit. lia. }
    destruct (bool_decide (0 < i)%nat) eqn:E0; cbn [andb].
    + destruct (bool_decide (length (take 14 s) = 14%nat)) eqn:E14; cbn [fst snd].
      * left. apply bool_decide_eq_true in E14.
        rewrite Nat.sub_0_r, <- words_app_sep. f_equal.
        assert (Hd : drop (S i) (take 14 s) ++ drop 14 s = drop (i + 1) s).
        { rewrite <- drop_app_le by lia. rewrite take_drop. f_equal. lia. }
        rewrite <- Hd. rewrite Hs at 1. rewrite Hsplit at 1.
        by rewrite <- app_assoc.
      * left. apply bool_decide_eq_false in E14. by apply Hshort.
    + cbn [fst snd]. apply bool_decide_eq_false in E0.
      assert (i = 0)%nat as -> by lia.
      destruct (decide (length (take 14 s) = 14%nat)) as [E14|];
        [|left; by apply Hshort].
      rewrite take_0 in Hsplit. cbn [app] in Hsplit.
      apply (Hhard (drop 1 (take 14 s))); [done| | |].
      * rewrite length_drop. lia.
      * rewrite Hsplit at 1. by rewrite words_cons_space.
      * rewrite Hs at 1. rewrite Hsplit at 1. cbn [app].
        by rewrite words_cons_space.
  - apply lastIndexOf_None in E.
    destruct (decide (length (take 14 s) = 14%nat)) as [E14|];
      [|left; by apply Hshort].
    apply (Hhard (take 14 s)); [done|lia|done|by rewrite <- Hs].
Qed.

(** Words that are not cut are the words of the name. *)
Lemma pieces_whole (ws : list jsstring) (pieces : list (list jsstring)) :
  Forall2 (fun w ps => concat ps = w /\ ((length w <= 13)%nat -> ps = [w]))
          ws pieces ->
  Forall (fun w => (length w <= 13)%nat) ws ->
  concat pieces = ws.
Proof.
  induction 1 as [|w ps ws pieces [_ Hw] _ IH]; [done|].
  intros [Hl Hws]%Forall_cons_1. rewrite (Hw Hl). cbn. f_equal. by apply IH.
Qed.

(** X21. What the wrapping of the company name keeps. The loop prints its
    chunks trimmed, and no printed line is longer than 14 characters. The
    words of the chunks (the lines before they are trimmed), taken in
    order, are the words of the name, except that a word may appear cut
    into consecutive pieces; and a word of at most 13 characters is never
    cut, whatever the other words of the name are. *)
Theorem company_name_short_words_whole (name : jsstring) :
  companyNameLoop name [] =
    flat_map (fun l => printLine (trim l) []) (companyNameChunks name)
  /\ Forall (fun l => (length (trim l) <= 14)%nat) (companyNameChunks name)
  /\ exists pieces : list (list jsstring),
       concat pieces = concat (map words (companyNameChunks name))
       /\ Forall2 (fun w ps => concat ps = w
                               /\ ((length w <= 13)%nat -> ps = [w]))
                  (words name) pieces.
Proof.
  split; [by rewrite companyNameLoop_chunks|].
  split; [apply companyNameChunks_length|].
  funelim (companyNameChunks name); simp companyNameChunks.
  - exists []. split; [done|]. rewrite words_nil. constructor.
  - destruct H as (pss & Hc & Hf). cbn [map concat].
    assert (Hid : forall l : list jsstring,
              Forall2 (fun w ps => concat ps = w
                                   /\ ((length w <= 13)%nat -> ps = [w]))
                      l (map (fun w => [w]) l)
              /\ concat (map (fun w => [w]) l) = l).
    { induction l as [|w l [IH1 IH2]]; [by split; [constructor|]|].
      split; [|by cbn; rewrite IH2].
      constructor; [|done]. split; [by cbn; rewrite app_nil_r|done]. }
    destruct (companyNameStep_pieces (c :: r))
      as [Hw|(a & b & B & Ha & Hb & Hw & Hlen)].
    + exists (map (fun w => [w]) (words (companyNameStep (c :: r)).1) ++ pss).
      split.
      * rewrite concat_app, (proj2 (Hid _)), Hc. done.
      * rewrite Hw. apply Forall2_app; [apply Hid|done].
    + rewrite Hb in Hf. apply Forall2_cons_inv_l in Hf
        as (pb & pB & [Hpb _] & HB & ->).
      exists ((a :: pb) :: pB). split.
      * rewrite Ha, <- Hc. cbn [concat app]. done.
      * rewrite Hw. constructor; [|done]. split; [|lia].
        cbn [concat]. by rewrite Hpb.
Qed.

Lemma company_name_short_words_whole_witness :
  let name := js "SUPERLONG COMPANY NAME PRIVATE LIMITED" in
  concat (map words (companyNameChunks name)) =
  [js "SUPERLONG"; js "COMPANY"; js "NAME"; js "PRIVATE"; js "LIMITED"].
Proof.
  intros name.
  destruct (company_name_short_words_whole name)
    as (_ & _ & pieces & <- & Hf).
  assert (Hw : words name =
               [js "SUPERLONG"; js "COMPANY"; js "NAME"; js "PRIVATE";
                js "LIMITED"]) by (vm_compute; reflexivity).
  rewrite <- Hw. apply pieces_whole; [exact Hf|].
  rewrite Hw. repeat constructor; cbn; lia.
Defined.

Lemma appends_companyHeader inv st : Appends (companyHeader inv st).
Proof.
  unfold companyHeader.
  destruct (company_address (company inv)) as [a|];
    [destruct (JSString.truthy a)|];
    (destruct (company_phone (company inv)) as [p|];
       [destruct (JSString.truthy p)|]);
    solve_appends.
Qed.

Lemma appends_invoiceType inv st : Appends (invoiceType inv st).
Proof. unfold invoiceType. solve_appends. Qed.

Lemma appends_orderDetails inv st : Appends (orderDetails inv st).
Proof. unfold orderDetails. solve_appends. Qed.

Lemma appends_partyDetails inv : Appends (partyDetails inv).
Proof.
  unfold partyDetails. destruct (JSString.truthy (party_name _));
    solve_appends.
Qed.

Lemma appends_itemsTableHeader st : Appends (itemsTableHeader st).
Proof. unfold itemsTableHeader. solve_appends. Qed.

Lemma appends_itemsList inv : Appends (itemsList inv).
Proof.
  unfold itemsList. destruct (items inv) as [|i its].
  - solve_appends.
  - apply (appends_comp
             (fun c => foldl (fun commands item => printItem item commands) c
                             (i :: its)) (printLine [])).
    + apply (appends_foldl (fun item c => printItem item c)).
      intros a. apply appends_printItem.
    + apply appends_printLine.
Qed.

Lemma appends_receiptBody inv st : Appends (receiptBody inv st).
Proof.
  intros c. rewrite (receiptBody_split inv st c), (receiptBody_split inv st []).
  rewrite (appends_itemsList inv (itemsTableHeader st _)).
  rewrite (appends_itemsTableHeader st (partyDetails inv _)).
  rewrite (appends_partyDetails inv (orderDetails inv st _)).
  rewrite (appends_orderDetails inv st (invoiceType inv st _)).
  rewrite (appends_invoiceType inv st (companyHeader inv st _)).
  rewrite (appends_companyHeader inv st c).
  rewrite (appends_itemsList inv (itemsTableHeader st (partyDetails inv
             (orderDetails inv st (invoiceType inv st (companyHeader inv st [])))))).
  rewrite (appends_itemsTableHeader st (partyDetails inv
             (orderDetails inv st (invoiceType inv st (companyHeader inv st []))))).
  rewrite (appends_partyDetails inv
             (orderDetails inv st (invoiceType inv st (companyHeader inv st [])))).
  rewrite (appends_orderDetails inv st (invoiceType inv st (companyHeader inv st []))).
  rewrite (appends_invoiceType inv st (companyHeader inv st [])).
  by rewrite <- !app_assoc.
Qed.

(** X13. Every stream generated for a document begins with the
    initialize command ESC @ (0x1B 0x40). *)
Theorem stream_starts_with_initialize `{Host} (inv : Invoice)
    (settings : Settings) (out : list Z) :
  generateEscPosCommands (Some inv) settings = Some out ->
  exists rest, out = [27; 64] ++ rest.
Proof.
  unfold generateEscPosCommands. intros Hg.
  destruct (logoSection settings [ESC; 64]) as [c|] eqn:El; [|done].
  injection Hg as <-. rewrite appends_receiptBody.
  assert (Hc : exists extra, c = [27; 64] ++ extra).
  { unfold logoSection in El.
    destruct (JSString.truthy (logoUrl settings)).
    - destruct (printImage _ _ _) as [logo|]; [|done].
      injection El as <-. unfold printLine, setAlignment. cbv zeta.
      eexists. rewrite <- ?app_assoc. reflexivity.
    - injection El as <-. by exists []. }
  destruct Hc as [extra ->]. rewrite <- app_assoc. eauto.
Qed.

Lemma stream_starts_with_initialize_witness :
  exists rest,
    receiptBody Examples.widgetInvoice Examples.plainSettings [27; 64] =
    [27; 64] ++ rest.
Proof.
  apply (stream_starts_with_initialize (H := Examples.hostOf (Text []))
           Examples.widgetInvoice Examples.plainSettings).
  vm_compute. reflexivity.
Defined.

(** X14. A logo that cannot be loaded does not stop the generation: the
    stream is the one without a logo, with the centre alignment set for the
    logo and one empty line in front of the header; and without a logo URL
    the header follows the initialize command at once. *)
Theorem logo_failure_degrades `{Host} (inv : Invoice) (settings : Settings) :
  (JSString.truthy (logoUrl settings) = false \/
   loadImage (logoUrl settings) = None) ->
  generateEscPosCommands (Some inv) settings =
  Some ([27; 64]
        ++ (if JSString.truthy (logoUrl settings) then [27; 97; 1; 10] else [])
        ++ receiptBody inv settings []).
Proof.
  intros Hl.
  assert (El : logoSection settings [ESC; 64] =
               Some ([27; 64] ++ (if JSString.truthy (logoUrl settings)
                                  then [27; 97; 1; 10] else []))).
  { unfold logoSection, printImage.
    destruct (JSString.truthy (logoUrl settings)) eqn:Et; [|done].
    destruct Hl as [Hl|Hl]; [done|]. by rewrite Hl. }
  unfold generateEscPosCommands. rewrite El.
  transitivity (Some (receiptBody inv settings
                  ([27; 64] ++ (if JSString.truthy (logoUrl settings)
                                then [27; 97; 1; 10] else []))));
    [reflexivity|].
  rewrite appends_receiptBody. by rewrite <- app_assoc.
Qed.

Lemma logo_failure_degrades_witness :
  let settings :=
    {| logoUrl := js "logo.png"; headerAlignment := js "left";
       lineSeparator := []; labelBold := false; valueBold := false |} in
  generateEscPosCommands (H := Examples.hostOf (Text []))
    (Some Examples.widgetInvoice) settings =
  Some ([27; 64] ++ [27; 97; 1; 10]
        ++ receiptBody Examples.widgetInvoice settings []).
Proof.
  intros settings.
  apply (logo_failure_degrades (H := Examples.hostOf (Text []))
           Examples.widgetInvoice settings).
  right. reflexivity.
Defined.

(** X15. The raster command is GS v 0 with mode 0, then the width in bytes
    and the height in dots, each as a low byte followed by a high byte,
    then the bitmap: 8 + ceil(W / 8) * H bytes in all. The two numbers are
    recovered from their bytes as long as they are below 65536. *)
Theorem raster_header (W H : nat) (data : list Z) :
  (Z.of_nat ((W + 7) / 8) < 65536) -> (Z.of_nat H < 65536) ->
  exists xL xH yL yH,
    rasterCommands W H data =
      [29; 118; 48; 0; xL; xH; yL; yH] ++ rasterize W H data
    /\ xL + 256 * xH = Z.of_nat ((W + 7) / 8)
    /\ yL + 256 * yH = Z.of_nat H
    /\ Forall (fun b => 0 <= b < 256) [xL; xH; yL; yH]
    /\ length (rasterCommands W H data) = (8 + (W + 7) / 8 * H)%nat.
Proof.
  intros Hw Hh. unfold rasterCommands.
  set (b := Z.of_nat ((W + 7) / 8)) in *. set (h := Z.of_nat H) in *.
  assert (Hl : forall n, Z.land n 255 = n mod 256)
    by (intros n; apply (Z.land_ones n 8); lia).
  assert (Hs : forall n, Z.shiftr n 8 = n / 256)
    by (intros n; apply (Z.shiftr_div_pow2 n 8); lia).
  exists (Z.land b 255), (Z.land (Z.shiftr b 8) 255),
         (Z.land h 255), (Z.land (Z.shiftr h 8) 255).
  rewrite !Hl, !Hs.
  assert (0 <= b) by (unfold b; lia). assert (0 <= h) by (unfold h; lia).
  pose proof (Z.mod_pos_bound b 256). pose proof (Z.mod_pos_bound h 256).
  pose proof (Z.mod_pos_bound (b / 256) 256).
  pose proof (Z.mod_pos_bound (h / 256) 256).
  pose proof (Z.div_mod b 256). pose proof (Z.div_mod h 256).
  assert (b / 256 < 256) by (apply Z.div_lt_upper_bound; lia).
  assert (h / 256 < 256) by (apply Z.div_lt_upper_bound; lia).
  assert (0 <= b / 256) by (apply Z.div_pos; lia).
  assert (0 <= h / 256) by (apply Z.div_pos; lia).
  rewrite (Z.mod_small (b / 256) 256), (Z.mod_small (h / 256) 256) by lia.
  split; [reflexivity|]. split; [lia|]. split; [lia|]. split.
  - repeat constructor; lia.
  - rewrite length_app. cbn [length].
    rewrite rasterize_plotAll, plotAll_length, length_replicate. lia.
Qed.

Lemma raster_header_witness :
  take 8 (rasterCommands 384 300 []) = [29; 118; 48; 0; 48; 0; 44; 1].
Proof.
  destruct (raster_header 384 300 []) as (xL & xH & yL & yH & -> & Hx & Hy & Hb & _).
  - cbn. lia.
  - lia.
  - cbn [take app]. cbn in Hx, Hy.
    apply Forall_cons_1 in Hb as [? Hb]. apply Forall_cons_1 in Hb as [? Hb].
    apply Forall_cons_1 in Hb as [? Hb]. apply Forall_cons_1 in Hb as [? _].
    assert (xL = 48) by lia. assert (xH = 0) by lia.
    assert (yL = 44) by lia. assert (yH = 1) by lia. by subst.
Defined.

Lemma lor_byte a b :
  0 <= a < 256 -> 0 <= b < 256 -> 0 <= Z.lor a b < 256.
Proof.
  intros Ha Hb. split; [apply Z.lor_nonneg; lia|].
  destruct (decide (a = 0)) as [->|]; [rewrite Z.lor_0_l; lia|].
  destruct (decide (b = 0)) as [->|]; [rewrite Z.lor_0_r; lia|].
  assert (Hp : 0 < Z.lor a b).
  { assert (0 <= Z.lor a b) by (apply Z.lor_nonneg; lia).
    destruct (decide (Z.lor a b = 0)) as [E|]; [|lia].
    apply Z.lor_eq_0_iff in E. lia. }
  apply (Z.log2_lt_pow2 _ 8 Hp). rewrite Z.log2_lor by lia.
  apply Z.max_lub_lt; apply Z.log2_lt_pow2; lia.
Qed.

(** X16. Every byte of the bitmap is a byte: the bits the loops set never
    carry a value out of the range 0 to 255. *)
Theorem raster_bytes (W H : nat) (data : list Z) :
  Forall (fun b => 0 <= b < 256) (rasterize W H data).
Proof.
  rewrite rasterize_plotAll.
  assert (H0 : Forall (fun b => 0 <= b < 256)
                 (replicate ((W + 7) / 8 * H) 0)).
  { apply Forall_replicate. lia. }
  revert H0. generalize (replicate ((W + 7) / 8 * H) 0).
  generalize (pixels W H). intros ps.
  induction ps as [|[y x] ps IH]; intros bm Hbm; [done|].
  unfold plotAll in *. cbn [foldl]. apply IH. unfold plot.
  destruct (ltb _ _); [|done].
  apply Forall_alter; [done|]. intros b _ Hb. cbn [fst snd].
  apply lor_byte; [done|]. rewrite Z.shiftl_1_l.
  assert (Hk : (7 - x mod 8 <= 7)%nat) by lia.
  split; [apply Z.pow_nonneg; lia|].
  apply (Z.lt_le_trans _ (2 ^ 7 + 1)); [|lia].
  assert (2 ^ Z.of_nat (7 - x mod 8) <= 2 ^ 7)
    by (apply Z.pow_le_mono_r; lia).
  lia.
Qed.

Lemma lor_high_not_lf K x : Z.testbit K 7 = true -> Z.lor K x <> 10.
Proof.
  intros HK E. apply (f_equal (fun z => Z.testbit z 7)) in E.
  rewrite Z.lor_spec, HK in E. discriminate E.
Qed.

Lemma utf8_cons c r :
  utf8 (c :: r) =
  if c <? 128 then c :: utf8 r
  else if c <? 2048 then
    Z.lor 192 (Z.shiftr c 6) :: Z.lor 128 (Z.land c 63) :: utf8 r
  else if (55296 <=? c) && (c <? 56320) then
    match r with
    | d :: r' =>
        if (56320 <=? d) && (d <? 57344) then
          let cp := 65536 + Z.shiftl (c - 55296) 10 + (d - 56320) in
          Z.lor 240 (Z.shiftr cp 18)
          :: Z.lor 128 (Z.land (Z.shiftr cp 12) 63)
          :: Z.lor 128 (Z.land (Z.shiftr cp 6) 63)
          :: Z.lor 128 (Z.land cp 63) :: utf8 r'
        else 239 :: 191 :: 189 :: utf8 r
    | [] => [239; 191; 189]
    end
  else if (56320 <=? c) && (c <? 57344) then 239 :: 191 :: 189 :: utf8 r
  else
    Z.lor 224 (Z.shiftr c 12)
    :: Z.lor 128 (Z.land (Z.shiftr c 6) 63)
    :: Z.lor 128 (Z.land c 63) :: utf8 r.
Proof. reflexivity. Qed.

Lemma utf8_no_lf s :
  Forall (fun c => c <> 10) s -> Forall (fun b => b <> 10) (utf8 s).
Proof.
  enough (Hq : (Forall (fun c => c <> 10) s ->
                Forall (fun b => b <> 10) (utf8 s))
               /\ forall c, Forall (fun c => c <> 10) (c :: s) ->
                            Forall (fun b => b <> 10) (utf8 (c :: s)))
    by apply Hq.
  induction s as [|d s [IH1 IH2]].
  - split; [done|]. intros c [Hc _]%Forall_cons_1. cbn [utf8].
    repeat case_match; repeat constructor;
      try done; by apply lor_high_not_lf.
  - split; [apply IH2|]. intros c [Hc Hds]%Forall_cons_1.
    pose proof (IH2 d Hds) as Hd.
    pose proof Hds as [_ Hs%IH1]%Forall_cons_1.
    rewrite utf8_cons. cbv zeta.
    destruct (c <? 128); [by constructor|].
    destruct (c <? 2048);
      [repeat constructor; try done; by apply lor_high_not_lf|].
    destruct ((55296 <=? c) && (c <? 56320)).
    { destruct ((56320 <=? d) && (d <? 57344));
        repeat constructor; try done; by apply lor_high_not_lf. }
    destruct ((56320 <=? c) && (c <? 57344));
      repeat constructor; try done; by apply lor_high_not_lf.
Qed.

(** X17. The bytes of a text that has no line feed have none either, so
    the line feed that [printLine] appends is the only one of its line:
    the rupee replacement and the multi-byte encodings never produce the
    byte 0x0A. *)
Theorem printed_line_has_one_line_feed (text : jsstring) :
  Forall (fun c => c <> 10) text ->
  exists bytes,
    printLine text [] = bytes ++ [10]
    /\ Forall (fun b => b <> 10) bytes.
Proof.
  intros Ht. exists (encodeText text). split; [reflexivity|].
  unfold encodeText. apply utf8_no_lf.
  induction Ht as [|c t Hc _ IH]; [constructor|]. cbn [flat_map].
  apply Forall_app. split; [|done].
  destruct (c =? 8377); repeat constructor; done.
Qed.

Lemma printed_line_has_one_line_feed_witness :
  exists bytes,
    printLine (8377 :: js "250.00") [] = bytes ++ [10]
    /\ Forall (fun b => b <> 10) bytes.
Proof.
  apply printed_line_has_one_line_feed.
  repeat constructor; done.
Defined.

Lemma utf8_ascii s : Forall (fun c => c < 128) s -> utf8 s = s.
Proof.
  induction 1 as [|c s Hc _ IH]; [done|]. cbn [utf8].
  apply Z.ltb_lt in Hc. by rewrite Hc, IH.
Qed.

(** X18. A text of ASCII characters and rupee signs is encoded unit by
    unit: each ASCII character is its own byte and each rupee sign becomes
    the four bytes of "Rs. ". *)
Theorem encodeText_ascii_rupee (text : jsstring) :
  Forall (fun c => c < 128 \/ c = 8377) text ->
  encodeText text =
  flat_map (fun c => if c =? 8377 then [82; 115; 46; 32] else [c]) text.
Proof.
  intros Ht. unfold encodeText. apply utf8_ascii.
  induction Ht as [|c t Hc _ IH]; [constructor|]. cbn [flat_map].
  apply Forall_app. split; [|done].
  destruct (c =? 8377) eqn:E.
  - repeat constructor; done.
  - apply Z.eqb_neq in E. repeat constructor. lia.
Qed.

Lemma encodeText_ascii_rupee_witness :
  encodeText (8377 :: js "5") = [82; 115; 46; 32; 53].
Proof.
  rewrite encodeText_ascii_rupee; [reflexivity|].
  repeat constructor; cbn; lia.
Defined.

Lemma land_63_byte x : 0 <= Z.land x 63 < 64.
Proof.
  change 63 with (Z.ones 6). rewrite (Z.land_ones x 6) by lia.
  apply Z.mod_pos_bound. lia.
Qed.

Lemma shiftr_bound x k n :
  0 <= x < n * 2 ^ k -> 0 <= k -> 0 <= Z.shiftr x k < n.
Proof.
  intros Hx Hk. rewrite Z.shiftr_div_pow2 by done.
  assert (0 < 2 ^ k) by (apply Z.pow_pos_nonneg; lia). split.
  - apply Z.div_pos; lia.
  - apply Z.div_lt_upper_bound; lia.
Qed.

Lemma utf8_cons_bytes c r :
  0 <= c < 65536 ->
  Forall (fun b => 0 <= b < 256) (utf8 r) ->
  match r with
  | d :: r' => 0 <= d < 65536 /\ Forall (fun b => 0 <= b < 256) (utf8 r')
  | [] => True
  end ->
  Forall (fun b => 0 <= b < 256) (utf8 (c :: r)).
Proof.
  intros Hc Hr Hr'.
  assert (Hcont : forall x, 0 <= Z.lor 128 (Z.land x 63) < 256).
  { intros x. pose proof (land_63_byte x). apply lor_byte; lia. }
  assert (Hlor : forall a b, 0 <= a < 256 -> 0 <= b < 256 ->
                              0 <= Z.lor a b < 256) by apply lor_byte.
  rewrite utf8_cons. cbv zeta.
  pose proof (shiftr_bound c 6 32). pose proof (shiftr_bound c 12 16).
  destruct (Z.ltb_spec c 128); [apply List.Forall_cons; [lia|done]|].
  destruct (Z.ltb_spec c 2048).
  { repeat (apply List.Forall_cons;
              [first [apply Hcont | apply Hlor; lia | lia]|]). done. }
  destruct (Z.leb_spec 55296 c), (Z.ltb_spec c 56320); cbn [andb]; [| | |lia].
  - destruct r as [|d r'].
    { repeat (apply List.Forall_cons; [lia|]). constructor. }
    destruct Hr' as [Hd Hr'].
    set (cp := 65536 + Z.shiftl (c - 55296) 10 + (d - 56320)).
    destruct (Z.leb_spec 56320 d), (Z.ltb_spec d 57344); cbn [andb].
    + assert (Hcp : 0 <= cp < 8 * 2 ^ 18).
      { unfold cp. rewrite Z.shiftl_mul_pow2 by lia. lia. }
      pose proof (shiftr_bound cp 18 8 Hcp).
      repeat (apply List.Forall_cons;
                [first [apply Hcont | apply Hlor; lia | lia]|]). done.
    + repeat (apply List.Forall_cons; [lia|]). done.
    + repeat (apply List.Forall_cons; [lia|]). done.
    + repeat (apply List.Forall_cons; [lia|]). done.
  - destruct (Z.leb_spec 56320 c), (Z.ltb_spec c 57344); cbn [andb].
    + repeat (apply List.Forall_cons; [lia|]). done.
    + repeat (apply List.Forall_cons;
                [first [apply Hcont | apply Hlor; lia | lia]|]). done.
    + lia.
    + lia.
  - destruct (Z.leb_spec 56320 c), (Z.ltb_spec c 57344); cbn [andb];
      try lia.
    all: repeat (apply List.Forall_cons;
                   [first [apply Hcont | apply Hlor; lia | lia]|]); done.
Qed.

Lemma utf8_bytes s :
  Forall (fun c => 0 <= c < 65536) s ->
  Forall (fun b => 0 <= b < 256) (utf8 s).
Proof.
  intros Hs.
  enough (Hq : Forall (fun b => 0 <= b < 256) (utf8 s)
               /\ forall c, 0 <= c < 65536 ->
                            Forall (fun b => 0 <= b < 256) (utf8 (c :: s)))
    by apply Hq.
  induction Hs as [|d s Hd Hs [IH1 IH2]].
  - split; [constructor|]. intros c Hc. by apply utf8_cons_bytes.
  - split; [by apply IH2|]. intros c Hc.
    apply utf8_cons_bytes; [done|by apply IH2|done].
Qed.

(** X19. Encoding never leaves the range of a byte: for a text of UTF-16
    code units, every element of [encodeText] is between 0 and 255. *)
Theorem encodeText_bytes (text : jsstring) :
  Forall (fun c => 0 <= c < 65536) text ->
  Forall (fun b => 0 <= b < 256) (encodeText text).
Proof.
  intros Ht. unfold encodeText. apply utf8_bytes.
  induction Ht as [|c t Hc _ IH]; [constructor|]. cbn [flat_map].
  apply Forall_app. split; [|done].
  destruct (c =? 8377); repeat constructor; cbn; lia.
Qed.

Lemma encodeText_bytes_witness :
  Forall (fun b => 0 <= b < 256) (encodeText [8377; 233; 55357; 56832; 65]).
Proof.
  apply encodeText_bytes. repeat constructor; lia.
Defined.

(** X20. The generator only appends: the bytes of the receipt that follow
    the logo are the same whatever was put into the stream before them. *)
Theorem receipt_after_any_prefix (inv : Invoice) (settings : Settings)
    (commands : list Z) :
  receiptBody inv settings commands =
  commands ++ receiptBody inv settings [].
Proof. apply appends_receiptBody. Qed.
